(** * ucsrename: a shallow embedding of the renamer and its catalog

    The development follows the three Go packages of the repository:
    [ucs] (catalog loading and filename rendering), [renamer] (the
    interactive field collection) and [main] (flag handling and exit codes).
    The parts of the Go standard library the program calls ([strings],
    [unicode], [bufio], [fmt.Fscanf], [encoding/csv], [flag],
    [path/filepath], [slices]) are modelled next to their callers. *)

From Stdlib Require Import ZArith List String Ascii Lia Permutation Bool DecimalString.
From stdpp Require Import base option list gmap.
From Equations Require Import Equations.
From Equations.Prop Require Import Logic.
Import ListNotations.

Local Open Scope Z_scope.

(** ** Go strings

    A Go string is modelled by the sequence of its characters, each given by
    its code point (Go's [rune], an [int32]).  Every delimiter the program
    looks for (newline, underscore, space, colon, dot, slash, comma, minus,
    equals) is ASCII, and UTF-8 never uses an ASCII byte inside a multi-byte
    character, so the byte-level searches of the source agree with searches
    over characters.  A byte that is not part of a well-formed encoding
    decodes to U+FFFD in [unicode] tests; it is any value outside the
    white-space table here. *)

Abbreviation rune := Z (only parsing).
Abbreviation gostring := (list Z) (only parsing).

Definition go (s : String.string) : gostring :=
  map (fun a => Z.of_N (N_of_ascii a)) (list_ascii_of_string s).
Arguments go s%_string : simpl never.

Definition NL : rune := 10.
Definition underscore : rune := 95.
Definition hyphen : rune := 45.

Module unicode.

(** [unicode.IsSpace]: the Latin-1 cases of the source, then the
    White_Space range table. *)
Definition IsSpace (r : rune) : bool :=
  if r <=? 255 then
    (9 <=? r) && (r <=? 13) || (r =? 32) || (r =? 133) || (r =? 160)
  else
    (r =? 5760) || (8192 <=? r) && (r <=? 8202) || (r =? 8232) || (r =? 8233)
    || (r =? 8239) || (r =? 8287) || (r =? 12288).

(** [unicode.ToLower].  ASCII and Latin-1 capitals move to their small
    forms; U+0130 and U+212A are the two characters outside ASCII whose
    lower case is an ASCII letter ([i] and [k]).  Other cased letters
    outside Latin-1 have lower-case forms outside ASCII as well and are left
    in place: the program only compares lowered text with ASCII words. *)
Definition ToLower (r : rune) : rune :=
  if (65 <=? r) && (r <=? 90) then r + 32
  else if (192 <=? r) && (r <=? 222) && negb (r =? 215) then r + 32
  else if r =? 304 then 105
  else if r =? 8490 then 107
  else r.

End unicode.

Module strings.

Fixpoint dropWhile (f : rune -> bool) (s : gostring) : gostring :=
  match s with
  | [] => []
  | r :: s' => if f r then dropWhile f s' else s
  end.

Fixpoint takeWhile (f : rune -> bool) (s : gostring) : gostring :=
  match s with
  | [] => []
  | r :: s' => if f r then r :: takeWhile f s' else []
  end.

Definition TrimLeftFunc (s : gostring) (f : rune -> bool) : gostring :=
  dropWhile f s.

Definition TrimRightFunc (s : gostring) (f : rune -> bool) : gostring :=
  rev (dropWhile f (rev s)).

(** [strings.TrimSpace]: leading and trailing white space removed. *)
Definition TrimSpace (s : gostring) : gostring :=
  TrimRightFunc (TrimLeftFunc s unicode.IsSpace) unicode.IsSpace.

(** [strings.TrimRight s cutset]: trailing characters of [cutset] removed. *)
Definition TrimRight (s cutset : gostring) : gostring :=
  TrimRightFunc s (fun r => bool_decide (r ∈ cutset)).

(** [strings.FieldsFunc]: one pass over the characters; [cur] is the field
    being read ([None] when the scan is between fields, the source's
    [start < 0]), kept in reverse. *)
Fixpoint fieldsLoop (f : rune -> bool) (s : gostring) (cur : option gostring)
  : list gostring :=
  match s with
  | [] => match cur with Some acc => [rev acc] | None => [] end
  | r :: s' =>
      if f r then
        match cur with
        | Some acc => rev acc :: fieldsLoop f s' None
        | None => fieldsLoop f s' None
        end
      else fieldsLoop f s' (Some (r :: default [] cur))
  end.

Definition FieldsFunc (s : gostring) (f : rune -> bool) : list gostring :=
  fieldsLoop f s None.

Definition Fields (s : gostring) : list gostring :=
  FieldsFunc s unicode.IsSpace.

(** [strings.Join]. *)
Fixpoint Join (elems : list gostring) (sep : gostring) : gostring :=
  match elems with
  | [] => []
  | [e] => e
  | e :: rest => e ++ sep ++ Join rest sep
  end.

Fixpoint HasPrefix (s prefix : gostring) {struct prefix} : bool :=
  match prefix, s with
  | [], _ => true
  | _ :: _, [] => false
  | p :: prefix', r :: s' => (r =? p) && HasPrefix s' prefix'
  end.

(** [strings.Contains]: [substr] starts at some position of [s]. *)
Fixpoint Contains (s substr : gostring) : bool :=
  HasPrefix s substr ||
  match s with
  | [] => false
  | _ :: s' => Contains s' substr
  end.

(** [strings.Split] for a non-empty separator: [skip] counts the
    characters of a separator occurrence still to be passed over, [acc] is
    the piece being read, in reverse.  An empty separator splits after
    every character. *)
Fixpoint splitLoop (sep : gostring) (skip : nat) (s acc : gostring)
  : list gostring :=
  match s with
  | [] => [rev acc]
  | r :: s' =>
      match skip with
      | S k => splitLoop sep k s' acc
      | O =>
          if HasPrefix s sep
          then rev acc :: splitLoop sep (Nat.pred (length sep)) s' []
          else splitLoop sep O s' (r :: acc)
      end
  end.

Definition Split (s sep : gostring) : list gostring :=
  match sep with
  | [] => map (fun r => [r]) s
  | _ :: _ => splitLoop sep O s []
  end.

Definition ToLower (s : gostring) : gostring := map unicode.ToLower s.

End strings.

(** ** Errors and results *)

Inductive error : Type :=
| io_EOF
| flag_ErrHelp
| exec_ExitError (status : gostring)
| exec_Error (msg : gostring)
| csv_ErrFieldCount (line : nat)
| os_PathError (msg : gostring)
| errorString (msg : gostring).

Inductive result (A : Type) : Type :=
| Ok (a : A)
| Err (e : error).
Arguments Ok {A} a.
Arguments Err {A} e.

(** ** The process and its surroundings

    What the program can observe but not change is a [World]: the
    environment variables, the command line, whether standard output is a
    terminal, the files it may open, and how the selector process and the
    file system answer.  What it changes is a [State]: the input still to be
    read and the trace of its effects, in order. *)

Inductive Writer : Type :=
| os_Stdout
| os_Stderr
| pipeWriter (id : nat).

Inductive Event : Type :=
| EvWrite (w : Writer) (text : gostring)
| EvRun (path : gostring) (args : list gostring) (extraEnv : gostring)
| EvRename (oldName newName : gostring).

Record FileInfo : Type := mkFileInfo {
  fi_Name : gostring;
  fi_IsDir : bool
}.

(** Standard input is the sequence of chunks its [Read] delivers into an
    empty buffer: a terminal hands over one line at a time, a pipe whatever
    is available.  The input is one that ends: after the last chunk [Read]
    reports [io.EOF].  A reader that breaks with another error is not
    modelled, and nothing below says which error a failed read has, except
    at the end of such an input. *)
Abbreviation Stdin := (list (list Z)) (only parsing).

Record World : Type := mkWorld {
  os_Environ : gmap (list Z) (list Z);
  os_Args : list gostring;
  isatty_Stdout : bool;
  exec_LookPath : gostring -> result gostring;
  (** a file as [encoding/csv] tokenises it, record by record, before the
      field-count check; a file that cannot be opened or tokenised is an
      error *)
  os_Open : gostring -> result (list (list gostring));
  content_Open : gostring -> result (list (list gostring));
  os_Stat : gostring -> result FileInfo;
  os_Rename : gostring -> gostring -> option error;
  (** [exec.Cmd.Run] of the selector: its error, what it wrote to its
      standard output, and what it left of the standard input it shares *)
  cmd_Run : gostring -> list gostring -> gostring -> Stdin
            -> option error * gostring * Stdin
}.

Record State : Type := mkState {
  stdin : Stdin;
  trace : list Event
}.

Definition Getenv (w : World) (key : gostring) : gostring :=
  default [] (os_Environ w !! key).

(** The state-and-error monad the effectful functions run in. *)
Definition M (A : Type) : Type := State -> result A * State.

#[global] Instance M_ret : MRet M := fun A a st => (Ok a, st).
#[global] Instance M_bind : MBind M := fun A B k m st =>
  match m st with
  | (Ok a, st') => k a st'
  | (Err e, st') => (Err e, st')
  end.

Definition fail {A : Type} (e : error) : M A := fun st => (Err e, st).

Definition Fprint (w : Writer) (text : gostring) : M unit :=
  fun st => (Ok tt, mkState (stdin st) (trace st ++ [EvWrite w text])).

Definition Fprintln (w : Writer) (text : gostring) : M unit :=
  Fprint w (text ++ [NL]).

(** The text of an error, as [fmt] prints it. *)
Definition Error (e : error) : gostring :=
  match e with
  | io_EOF => go "EOF"
  | flag_ErrHelp => go "flag: help requested"
  | exec_ExitError status => go "exit status " ++ status
  | exec_Error msg => msg
  | csv_ErrFieldCount line =>
      go "record on line " ++ go (NilEmpty.string_of_uint (Nat.to_uint line))
      ++ go ": wrong number of fields"
  | os_PathError msg => msg
  | errorString msg => msg
  end.

(** ** encoding/csv and slices *)

Module csv.

(** [Reader.ReadAll] with the reader as [csv.NewReader] leaves it:
    [FieldsPerRecord] is 0, so the first record sets the number of fields
    every later record must have. *)
Fixpoint readRecords (FieldsPerRecord : nat) (line : nat)
    (rows : list (list gostring)) : result (list (list gostring)) :=
  match rows with
  | [] => Ok []
  | r :: rest =>
      if (0 <? FieldsPerRecord)%nat then
        if negb (length r =? FieldsPerRecord)%nat
        then Err (csv_ErrFieldCount line)
        else match readRecords FieldsPerRecord (S line) rest with
             | Ok rs => Ok (r :: rs)
             | Err e => Err e
             end
      else match readRecords (length r) (S line) rest with
           | Ok rs => Ok (r :: rs)
           | Err e => Err e
           end
  end.

Definition ReadAll (rows : list (list gostring)) : result (list (list gostring)) :=
  readRecords 0 1 rows.

End csv.

Module slices.

Section Sort.
Context {E : Type} (cmp : E -> E -> Z).

(** The inner loop of the insertion sort: the new element moves left
    past every element it compares below.  [left] is the part already
    placed, nearest element first. *)
Fixpoint insertLeft (x : E) (left : list E) : list E :=
  match left with
  | [] => [x]
  | y :: left' => if cmp x y <? 0 then y :: insertLeft x left' else x :: left
  end.

(** [slices.SortFunc].  The library sorts slices of up to 12 elements
    by this insertion sort; longer ones by pattern-defeating quicksort,
    which yields the same order of keys and leaves the order of entries
    with equal keys unspecified. *)
Definition SortFunc (data : list E) : list E :=
  rev (fold_left (fun placed x => insertLeft x placed) data []).

Definition ContainsFunc (data : list E) (f : E -> bool) : bool :=
  existsb f data.

(** [slices.IsSortedFunc]: no element compares below the one before it. *)
Fixpoint IsSortedFunc (x : list E) : bool :=
  match x with
  | a :: tl => match tl with
               | b :: _ => negb (cmp b a <? 0) && IsSortedFunc tl
               | [] => true
               end
  | [] => true
  end.
End Sort.

End slices.

(** ** Package ucs *)

Module ucs.

Record Category : Type := mkCategory {
  c_Category : gostring;
  c_SubCategory : gostring;
  c_CatID : gostring;
  c_CatShort : gostring;
  c_Synonyms : gostring
}.

Definition open (w : World) : result (list (list gostring)) :=
  let fp := Getenv w (go "UCS_CSV_FILE") in
  if bool_decide (fp ≠ []) then os_Open w fp
  else content_Open w (go "UCS-v8.2.csv").

(** The loop over the records: a record is kept when it has 6 fields. *)
Fixpoint collect (records : list (list gostring)) : list Category :=
  match records with
  | [] => []
  | r :: rest =>
      if negb (length r =? 6)%nat then collect rest
      else mkCategory (nth 0 r []) (nth 1 r []) (nth 2 r []) (nth 3 r [])
                      (nth 5 r []) :: collect rest
  end.

(** Go compares strings byte by byte; on UTF-8 that is the order of the
    code points. *)
Fixpoint stringLess (a b : gostring) : bool :=
  match a, b with
  | _, [] => false
  | [], _ :: _ => true
  | x :: a', y :: b' => (x <? y) || (x =? y) && stringLess a' b'
  end.

Definition byCatID (a b : Category) : Z :=
  if stringLess (c_CatID a) (c_CatID b) then -1 else 1.

(** [Categories]. *)
Definition Categories (w : World) : result (list Category) :=
  match open w with
  | Err e => Err e
  | Ok f =>
      match csv.ReadAll f with
      | Err e => Err e
      | Ok records => Ok (slices.SortFunc byCatID (collect records))
      end
  end.

Record Filename : Type := mkFilename {
  CatID : gostring;
  FXName : gostring;
  CreatorID : gostring;
  SourceID : gostring;
  UserData : gostring
}.

(** [Filename.Render]. *)
Definition Render (f : Filename) (ext : gostring) : gostring :=
  let segs := [CatID f; FXName f; CreatorID f; SourceID f] in
  let segs := if bool_decide (UserData f ≠ []) then segs ++ [UserData f] else segs in
  strings.Join segs [underscore] ++ ext.

End ucs.

(** ** bufio, fmt and path/filepath *)

Module bufio.

(** The first occurrence of [delim] in a chunk: the text up to and
    including it. *)
Fixpoint upTo (delim : rune) (chunk : gostring) : option gostring :=
  match chunk with
  | [] => None
  | r :: chunk' =>
      if r =? delim then Some [r]
      else match upTo delim chunk' with
           | Some line => Some (r :: line)
           | None => None
           end
  end.

(** [bufio.NewReader(in).ReadString(delim)] on a reader that is used for
    this one call: the buffer is filled chunk by chunk until [delim] shows
    up; the text through [delim] is returned, and whatever the last chunk
    held after it stays in the buffer and goes with the reader.  When
    the input ends first, the error is [io.EOF]. *)
Fixpoint ReadString (input : Stdin) (delim : rune) (acc : gostring)
  : result gostring * Stdin :=
  match input with
  | [] => (Err io_EOF, [])
  | chunk :: input' =>
      match upTo delim chunk with
      | Some line => (Ok (acc ++ line), input')
      | None => ReadString input' delim (acc ++ chunk)
      end
  end.

End bufio.

Module fmt.

(** The verb [%s] of [fmt.Fscanf]: blanks before the word are passed
    over, a line end before the word is the error "unexpected newline",
    the end of the input is an error too; otherwise the word runs up to
    the next white space.  [None] stands for the error, on which the
    destination keeps its value. *)
Definition scanWord (input : gostring) : option gostring :=
  let input := strings.dropWhile (fun r => unicode.IsSpace r && negb (r =? NL)) input in
  match input with
  | [] => None
  | r :: _ =>
      if r =? NL then None
      else Some (strings.takeWhile (fun r => negb (unicode.IsSpace r)) input)
  end.

(** What [scanWord] took from the input, the character after the word
    included: the scanner reads it to see the word end. *)
Definition afterWord (input : gostring) : gostring :=
  let input := strings.dropWhile (fun r => unicode.IsSpace r && negb (r =? NL)) input in
  tl (strings.dropWhile (fun r => negb (unicode.IsSpace r)) input).

(** [strconv.Quote] as [%q] applies it, for text without quotes,
    backslashes and control characters: the text between double quotes. *)
Definition Quote (s : gostring) : gostring := [34] ++ s ++ [34].

End fmt.

Module filepath.

(** [filepath.Ext]: the suffix from the last dot of the last path
    element; scanning from the right, [suffix] is what was passed. *)
Fixpoint extLoop (revPath suffix : gostring) : gostring :=
  match revPath with
  | [] => []
  | r :: revPath' =>
      if r =? 47 then []
      else if r =? 46 then r :: suffix
      else extLoop revPath' (r :: suffix)
  end.

Definition Ext (path : gostring) : gostring := extLoop (rev path) [].

(** [filepath.Base]: trailing slashes removed, then the last element;
    [.] for an empty path and [/] for a path of slashes only. *)
Definition Base (path : gostring) : gostring :=
  match path with
  | [] => go "."
  | _ :: _ =>
      let path := strings.TrimRightFunc path (fun r => r =? 47) in
      let base := rev (strings.takeWhile (fun r => negb (r =? 47)) (rev path)) in
      match base with
      | [] => go "/"
      | _ :: _ => base
      end
  end.

End filepath.

(** ** Package renamer *)

Module renamer.

Record Renamer : Type := mkRenamer {
  SelfCommand : gostring;
  Stdout : Writer;
  Stderr : Writer;
  FZFExec : gostring
}.

Inductive requirement : Type :=
| required
| optional.

Definition isRequired (req : requirement) : bool :=
  match req with required => true | optional => false end.

Definition delimiterMessage : gostring :=
  go "Invalid: value cannot contain " ++ fmt.Quote [underscore]
  ++ go ", because it is the filename field delimiter".

(** The [for] loop of [promptField].  Every round takes at least one
    chunk off the input, which is what the recursion descends on. *)
#[derive(eliminator=no)]
Equations? promptLoop (r : Renamer) (fieldName : gostring) (req : requirement)
    (st : State) : result gostring * State by wf (length (stdin st)) lt :=
  promptLoop r fieldName req st
    with inspect (bufio.ReadString (stdin st) NL []) := {
    | exist _ (Err e, rest) _ =>
        (Err e, mkState rest (trace st ++ [EvWrite (Stdout r) (fieldName ++ go ": ")]));
    | exist _ (Ok text, rest) Hread =>
        let prompted := trace st ++ [EvWrite (Stdout r) (fieldName ++ go ": ")] in
        let trimmed := strings.TrimSpace text in
        if isRequired req && bool_decide (trimmed = []) then
          promptLoop r fieldName req
            (mkState rest (prompted ++
               [EvWrite (Stderr r) (go "Invalid: " ++ fieldName ++ go " is required" ++ [NL])]))
        else if strings.Contains trimmed [underscore] then
          promptLoop r fieldName req
            (mkState rest (prompted ++ [EvWrite (Stderr r) (delimiterMessage ++ [NL])]))
        else
          (Ok (strings.Join (strings.Fields trimmed) [hyphen]), mkState rest prompted)
    }.
Proof.
  all: simpl; clear -Hread.
  all: generalize dependent (@nil Z); induction (stdin st) as [|c l IH];
    intros acc Hread; simpl in Hread; [discriminate|].
  all: destruct (bufio.upTo NL c); [injection Hread as _ <-; simpl; lia|].
  all: apply IH in Hread; simpl; lia.
Qed.

(** [Renamer.promptField]. *)
Definition promptField (w : World) (r : Renamer) (fieldName : gostring)
    (req : requirement) (envOverrideVar : gostring) : M gostring :=
  fun st =>
    if bool_decide (envOverrideVar ≠ []) && bool_decide (Getenv w envOverrideVar ≠ [])
    then (Ok (Getenv w envOverrideVar), st)
    else promptLoop r fieldName req st.

(** [Renamer.promptFields].  On an error the caller drops the partly
    filled value, so only the error is kept. *)
Definition promptFields (w : World) (r : Renamer) (catID : gostring)
  : M ucs.Filename :=
  _ ← Fprint (Stdout r) (go "CatID: " ++ catID ++ [NL]);
  fxName ← promptField w r (go "FXName") required [];
  if bool_decide (fxName = []) then fail (errorString (go "FXName is required"))
  else
  creatorID ← promptField w r (go "CreatorID") required (go "UCS_CREATOR_ID");
  if bool_decide (creatorID = []) then fail (errorString (go "CreatorID is required"))
  else
  sourceID ← promptField w r (go "SourceID") required (go "UCS_SOURCE_ID");
  if bool_decide (sourceID = []) then fail (errorString (go "SourceID is required"))
  else
  userData ← promptField w r (go "UserData") optional (go "UCS_USER_DATA");
  mret (ucs.mkFilename catID fxName creatorID sourceID userData).

(** [validateCatID]: [None] is Go's [nil] error. *)
Definition validateCatID (w : World) (catID : gostring) : option error :=
  match ucs.Categories w with
  | Err e => Some e
  | Ok categories =>
      let exists_ := slices.ContainsFunc categories
                       (fun c => bool_decide (ucs.c_CatID c = catID)) in
      if negb exists_ then Some (errorString (go "unknown CatID: " ++ catID))
      else None
  end.

(** [errors.As(err, &exitErr)]. *)
Definition isExitError (e : error) : bool :=
  match e with exec_ExitError _ => true | _ => false end.

Definition fzfArgs : list gostring :=
  [go "--ansi"; go "--no-preview"; go "--header=" ++ [NL] ++ go "Select a CatID"].

(** [Renamer.buildFilename]. *)
Definition buildFilename (w : World) (r : Renamer) : M ucs.Filename :=
  fun st =>
    let catID := Getenv w (go "UCS_CAT_ID") in
    if bool_decide (catID ≠ []) then
      match validateCatID w catID with
      | Some err => (Err err, st)
      | None => promptFields w r catID st
      end
    else
      let env := go "FZF_DEFAULT_COMMAND=" ++ SelfCommand r in
      let '(err, out, input) := cmd_Run w (FZFExec r) fzfArgs env (stdin st) in
      let st := mkState input (trace st ++ [EvRun (FZFExec r) fzfArgs env]) in
      match err with
      | Some e =>
          if isExitError e then (Err e, st)
          else
            let choice := strings.TrimSpace out in
            let choiceSegs := strings.Split choice (go " ") in
            let catID := strings.TrimRight (hd [] choiceSegs) (go ":") in
            promptFields w r catID st
      | None =>
          let choice := strings.TrimSpace out in
          let choiceSegs := strings.Split choice (go " ") in
          let catID := strings.TrimRight (hd [] choiceSegs) (go ":") in
          promptFields w r catID st
      end.

(** [os.Rename]: the call is recorded whether or not it succeeds. *)
Definition Rename (w : World) (oldName newName : gostring) : M unit :=
  fun st =>
    let st := mkState (stdin st) (trace st ++ [EvRename oldName newName]) in
    match os_Rename w oldName newName with
    | Some e => (Err e, st)
    | None => (Ok tt, st)
    end.

(** [fmt.Fscanf(r.Stdin, "%s", &confirm)] with its results dropped, as
    the source drops them: on a scan error [confirm] stays empty.  The
    scanner takes the input byte by byte, across chunks; what is left is
    kept as one chunk. *)
Definition Fscanf_s : M gostring :=
  fun st =>
    let input := concat (stdin st) in
    (Ok (default [] (fmt.scanWord input)),
     mkState (match fmt.afterWord input with [] => [] | rest => [rest] end) (trace st)).

(** [Renamer.confirm].  Every branch of the [switch] inside the [for]
    returns, so the body runs once. *)
Definition confirm (r : Renamer) (prompt : gostring) (yes : M unit) : M unit :=
  _ ← Fprint os_Stdout (prompt ++ go " (y/n) ");
  confirm ← Fscanf_s;
  let lowered := strings.ToLower confirm in
  if bool_decide (lowered = go "y") || bool_decide (lowered = go "yes") then yes
  else if bool_decide (lowered = go "n") || bool_decide (lowered = go "no") then mret tt
  else mret tt.

(** [Renamer.Run]. *)
Definition Run (w : World) (r : Renamer) (filename : gostring)
    (forceConfirm : bool) : M unit :=
  match os_Stat w filename with
  | Err err => fail err
  | Ok srcFileInfo =>
      if fi_IsDir srcFileInfo then
        fail (errorString (fi_Name srcFileInfo ++ go " is a directory"))
      else
        let ext := filepath.Ext (fi_Name srcFileInfo) in
        if bool_decide (ext = []) then
          fail (errorString (go "no file name extension found"))
        else
          f ← buildFilename w r;
          let newName := ucs.Render f ext in
          let oldName := filepath.Base (fi_Name srcFileInfo) in
          if forceConfirm then Rename w oldName newName
          else
            confirm r
              (go "Rename " ++ fmt.Quote oldName ++ go " to " ++ fmt.Quote newName ++ go "?")
              (Rename w oldName newName)
  end.

End renamer.

(** ** Package flag, for the one flag set of the program *)

Module flag.

(** [strconv.ParseBool]. *)
Definition ParseBool (s : gostring) : option bool :=
  if bool_decide (s ∈ [go "1"; go "t"; go "T"; go "TRUE"; go "true"; go "True"])
  then Some true
  else if bool_decide (s ∈ [go "0"; go "f"; go "F"; go "FALSE"; go "false"; go "False"])
  then Some false
  else None.

(** [FlagSet.failf]: the message and the usage go to the flag set's
    output, standard error; the message is the error. *)
Definition failf {A : Type} (usage : M unit) (msg : gostring) : M A :=
  _ ← Fprintln os_Stderr msg;
  _ ← usage;
  fail (errorString msg).

Fixpoint cutAt (c : rune) (s : gostring) : option (gostring * gostring) :=
  match s with
  | [] => None
  | r :: s' =>
      if r =? c then Some ([], s')
      else match cutAt c s' with
           | Some (before, after) => Some (r :: before, after)
           | None => None
           end
  end.

(** The first part of [FlagSet.parseOne]: what kind of argument [s] is.
    An argument shorter than two characters or not starting with a minus
    ends the flags, and so does [--]; otherwise the minus signs are taken
    off and the name is cut at the first equals sign. *)
Inductive argument : Type :=
| notFlag
| terminator
| badSyntax
| flagArg (name : gostring) (hasValue : bool) (value : gostring).

Definition classify (s : gostring) : argument :=
  match s with
  | c0 :: c1 :: s2 =>
      if negb (c0 =? 45) then notFlag
      else if (c1 =? 45) && bool_decide (s2 = []) then terminator
      else
        let name := if c1 =? 45 then s2 else c1 :: s2 in
        if bool_decide (name = []) || (hd 0 name =? 45) || (hd 0 name =? 61)
        then badSyntax
        else match cutAt 61 name with
             | Some (before, after) => flagArg before true after
             | None => flagArg name false []
             end
  | _ => notFlag
  end.

(** [FlagSet.Parse] with [ContinueOnError], for a flag set whose only
    flag is the boolean [-y]: the loop over [parseOne].  The result is the
    value of the flag and the arguments left. *)
Fixpoint Parse (usage : M unit) (arguments : list gostring) (forceConfirm : bool)
  : M (bool * list gostring) :=
  match arguments with
  | [] => mret (forceConfirm, [])
  | s :: rest =>
      match classify s with
      | notFlag => mret (forceConfirm, arguments)
      | terminator => mret (forceConfirm, rest)
      | badSyntax => failf usage (go "bad flag syntax: " ++ s)
      | flagArg name hasValue value =>
          if bool_decide (name = go "y") then
            if hasValue then
              match ParseBool value with
              | Some b => Parse usage rest b
              | None =>
                  failf usage (go "invalid boolean value " ++ fmt.Quote value
                               ++ go " for -" ++ name ++ go ": parse error")
              end
            else Parse usage rest true
          else if bool_decide (name = go "help") || bool_decide (name = go "h") then
            _ ← usage; fail flag_ErrHelp
          else failf usage (go "flag provided but not defined: -" ++ name)
      end
  end.

End flag.

(** ** Package main *)

Module main.

Definition usage : gostring := go "
ucsrename renames files using Universal Category System (UCS) filename pattern.

Usage:
	
	ucsrename [-y] filename.wav

The program asks a series of questions to build a filename that conforms to UCS standards. The
source file's file extension is carried forward to the new file. Here's the layout of the filename
that it produces:

	CatID_FXName_CreatorID_SourceID_UserData.Extention

CatID, FXName, CreatorID and SourceID are required fields. The UserData field is optional and can be
used to specify information not captured by the UCS standard.

The program will prompt you for these fields, but some fields can be skipped by setting one of the
following environment variables:

- UCS_CAT_ID
- UCS_CREATOR_ID
- UCS_SOURCE_ID
- UCS_USER_DATA

Once a variable is set in the environment, the program will use that value instead of prompting the
user. This is useful for relatively static fields like CreatorID and SourceID.

fzf is required to provide a helpful, filterable, list of category IDs.

The UCS project has a great video outlining the filename structure:
https://www.youtube.com/watch?v=0s3ioIbNXSM

A UCS CSV is embedded in the program, but that file can be overridden by setting UCS_CSV_FILE
environment variable. Once set, all invocations will use that file instead of the embedded UCS CSV
file.
".

(** [usageFn]: the usage text, then the flag defaults as
    [FlagSet.PrintDefaults] lays them out. *)
Definition usageFn : M unit :=
  _ ← Fprintln os_Stderr usage;
  _ ← Fprint os_Stderr (go "Flags:" ++ [NL; NL]);
  _ ← Fprint os_Stderr (go "  -y" ++ [9] ++ go "force confirm rename" ++ [NL]);
  Fprintln os_Stderr [].

Definition isInteractive (w : World) : bool := isatty_Stdout w.

Fixpoint printLines (out : Writer) (categories : list ucs.Category) : M unit :=
  match categories with
  | [] => mret tt
  | c :: rest =>
      _ ← Fprint out (ucs.c_CatID c ++ go ": " ++ ucs.c_Category c ++ go " "
                      ++ ucs.c_SubCategory c ++ go " -- " ++ ucs.c_Synonyms c ++ [NL]);
      printLines out rest
  end.

Definition printCategories (w : World) (out : Writer) : M unit :=
  match ucs.Categories w with
  | Err err => fail err
  | Ok categories => printLines out categories
  end.

(** [run].  [os.Args] always holds the program name, so [os.Args[1:]]
    and [os.Args[0]] are read with [tl] and [hd]. *)
Definition run (w : World) : M unit :=
  if negb (isInteractive w) then printCategories w os_Stdout
  else
    '(forceConfirm, args) ← flag.Parse usageFn (tl (os_Args w)) false;
    let filename := hd [] args in
    if bool_decide (filename = []) then usageFn
    else
      match exec_LookPath w (go "fzf") with
      | Err err => fail err
      | Ok fzfExec =>
          renamer.Run w
            (renamer.mkRenamer (hd [] (os_Args w)) os_Stdout os_Stderr fzfExec)
            filename forceConfirm
      end.

(** [errors.Is(err, flag.ErrHelp)]. *)
Definition isErrHelp (e : error) : bool :=
  match e with flag_ErrHelp => true | _ => false end.

(** [main]: the exit status of the process with the final state.
    Returning from [main] is exit status 0. *)
Definition main (w : World) (st : State) : Z * State :=
  match run w st with
  | (Ok _, st) => (0, st)
  | (Err err, st) =>
      if isErrHelp err then (2, st)
      else (1, snd (Fprintln os_Stderr (Error err) st))
  end.

End main.


(** ** The specification's own words, for comparison with the code *)

Module spec.

(** Every run of white space becomes one hyphen; [inRun] says that the
    character before was white space. *)
Fixpoint collapseRuns (inRun : bool) (s : gostring) : gostring :=
  match s with
  | [] => []
  | r :: s' =>
      if unicode.IsSpace r then
        if inRun then collapseRuns true s' else hyphen :: collapseRuns true s'
      else r :: collapseRuns false s'
  end.

(** White space trimmed at both ends, every interior run one hyphen. *)
Definition normalize (line : gostring) : gostring :=
  collapseRuns false (strings.TrimSpace line).

(** The entries of the rows that have six fields, by column position. *)
Definition sixFieldEntries (rows : list (list gostring)) : list ucs.Category :=
  map (fun r => ucs.mkCategory (nth 0 r []) (nth 1 r []) (nth 2 r []) (nth 3 r [])
                               (nth 5 r []))
      (List.filter (fun r => (length r =? 6)%nat) rows).

(** A field value is free of the delimiter. *)
Definition delimiterFree (s : gostring) : Prop := underscore ∉ s.

End spec.

(** ** Vocabulary of the statements *)

(** White space at the ends of a string. *)
Definition startsClean (s : gostring) : Prop :=
  match s with [] => True | x :: _ => unicode.IsSpace x = false end.

Fixpoint endsClean (s : gostring) : Prop :=
  match s with
  | [] => True
  | x :: s' => match s' with [] => unicode.IsSpace x = false | _ :: _ => endsClean s' end
  end.

(** A line laid out as words and gaps: white space, a first word, then
    gaps each followed by a word, then white space. *)
Definition blank (s : gostring) : Prop := forallb unicode.IsSpace s = true.

Definition solid (s : gostring) : Prop :=
  s ≠ [] /\ forallb (fun x => negb (unicode.IsSpace x)) s = true.

Definition gapWords (rest : list (gostring * gostring)) : gostring :=
  concat (map (fun gw => fst gw ++ snd gw) rest).

Definition gapped (rest : list (gostring * gostring)) : Prop :=
  Forall (fun gw => blank (fst gw) /\ fst gw ≠ [] /\ solid (snd gw)) rest.

(** The segments [Render] joins. *)
Definition segments (f : ucs.Filename) : list gostring :=
  [ucs.CatID f; ucs.FXName f; ucs.CreatorID f; ucs.SourceID f]
  ++ (if bool_decide (ucs.UserData f = []) then [] else [ucs.UserData f]).

(** An effect that is a write to some stream. *)
Definition isWrite (ev : Event) : Prop :=
  match ev with EvWrite _ _ => True | _ => False end.

(** The case variants of [y] and [yes]. *)
Definition yesWords : list gostring :=
  [go "y"; go "Y"; go "yes"; go "yeS"; go "yEs"; go "yES";
   go "Yes"; go "YeS"; go "YEs"; go "YES"].

(** The case variants of [n] and [no]. *)
Definition noWords : list gostring :=
  [go "n"; go "N"; go "no"; go "nO"; go "No"; go "NO"].



(** ** Worlds and sessions to run the program in *)

(** The filename of the package's rendering test. *)
Definition clippy : ucs.Filename :=
  ucs.mkFilename (go "AMBPark") (go "Central Park Bethesda Fountain") (go "Buddin")
                 (go "Phonogrifter") (go "Clippy").

(** A catalog file with the one AMBPark row, and one with a six-field row
    followed by a five-field row. *)
Definition onePark : list (list gostring) :=
  [strings.Split (go "AMBIENCE,PARK,AMBPark,AMB,,park indoor outdoor") (go ",")].

Definition raggedRows : list (list gostring) :=
  [strings.Split (go "AMBIENCE,PARK,AMBPark,AMB,,park indoor outdoor") (go ",");
   strings.Split (go "AIR,BLOW,AIRBlow,AIR,wind") (go ",")].

(** A terminal session: the environment and the command line are given,
    the embedded catalog has the one AMBPark row, the selector answers with
    [selected] and exit status 0, the source file exists and renaming
    succeeds. *)
Definition session (env : gmap (list Z) (list Z)) (args : list gostring)
    (selected : gostring) : World :=
  mkWorld env args true
    (fun _ => Ok (go "/usr/bin/fzf"))
    (fun path => Err (os_PathError (go "open " ++ path ++ go ": no such file or directory")))
    (fun _ => Ok onePark)
    (fun name => Ok (mkFileInfo name false))
    (fun _ _ => None)
    (fun _ _ _ input => (None, selected, input)).

(** The same session when the selector cannot be started. *)
Definition noSelector : World :=
  mkWorld ∅ [] true
    (fun _ => Ok (go "/usr/bin/fzf"))
    (fun path => Err (os_PathError (go "open " ++ path ++ go ": no such file or directory")))
    (fun _ => Ok onePark)
    (fun name => Ok (mkFileInfo name false))
    (fun _ _ => None)
    (fun _ _ _ input =>
       (Some (exec_Error (go "fork/exec /usr/bin/fzf: permission denied")), [], input)).

(** A world whose embedded catalog has the given rows. *)
Definition withCatalog (rows : list (list gostring)) : World :=
  mkWorld ∅ [] true
    (fun _ => Ok (go "/usr/bin/fzf"))
    (fun path => Err (os_PathError (go "open " ++ path ++ go ": no such file or directory")))
    (fun _ => Ok rows)
    (fun name => Ok (mkFileInfo name false))
    (fun _ _ => None)
    (fun _ _ _ input => (None, [], input)).

Definition terminal : renamer.Renamer :=
  renamer.mkRenamer (go "ucsrename") os_Stdout os_Stderr (go "/usr/bin/fzf").

(** Typed lines, one chunk each. *)
Definition typed (lines : list gostring) : State :=
  mkState (map (fun line => line ++ [NL]) lines) [].

(** ** Vocabulary for the rounds of the prompt, the listing and the trace *)

(** What a round of the prompt loop writes first. *)
Definition promptEvent (r : renamer.Renamer) (fieldName : gostring) : Event :=
  EvWrite (renamer.Stdout r) (fieldName ++ go ": ").

(** The two tests of a round on the text read, and the error line the
    round writes when one of them fires. *)
Definition rejects (req : renamer.requirement) (text : gostring) : bool :=
  renamer.isRequired req && bool_decide (strings.TrimSpace text = [])
  || strings.Contains (strings.TrimSpace text) [underscore].

Definition rejection (r : renamer.Renamer) (fieldName : gostring)
    (req : renamer.requirement) (text : gostring) : Event :=
  if renamer.isRequired req && bool_decide (strings.TrimSpace text = [])
  then EvWrite (renamer.Stderr r) (go "Invalid: " ++ fieldName ++ go " is required" ++ [NL])
  else EvWrite (renamer.Stderr r) (renamer.delimiterMessage ++ [NL]).

(** The line [printCategories] writes for an entry. *)
Definition listingLine (c : ucs.Category) : gostring :=
  ucs.c_CatID c ++ go ": " ++ ucs.c_Category c ++ go " " ++ ucs.c_SubCategory c
  ++ go " -- " ++ ucs.c_Synonyms c ++ [NL].

(** The category id [buildFilename] reads off the selector's output. *)
Definition chosenCatID (out : gostring) : gostring :=
  strings.TrimRight (hd [] (strings.Split (strings.TrimSpace out) (go " "))) (go ":").


(** The last element of a path, where [filepath.Ext] looks for the dot. *)
Definition lastElement (path : gostring) : gostring :=
  rev (strings.takeWhile (fun x => negb (x =? 47)) (rev path)).

Ltac list_mem := repeat first [apply list_elem_of_here | apply list_elem_of_further].

(** * Properties *)

(** ** Checks of the library models *)

Example Fields_words :
  strings.Fields (go "  foo bar  baz   ") = [go "foo"; go "bar"; go "baz"].
Proof. reflexivity. Qed.

Example Fields_blank : strings.Fields ([32; 9; 10]) = [].
Proof. reflexivity. Qed.

Example TrimSpace_both_ends :
  strings.TrimSpace ([32; 9; 10] ++ go "Hello, Gophers" ++ [32; 10; 9; 13; 10])
  = go "Hello, Gophers".
Proof. reflexivity. Qed.

Example TrimSpace_no_break_space : strings.TrimSpace ([160] ++ go "a" ++ [8195]) = go "a".
Proof. reflexivity. Qed.

Example Split_commas : strings.Split (go "a,b,c") (go ",") = [go "a"; go "b"; go "c"].
Proof. reflexivity. Qed.

Example Split_long_separator :
  strings.Split (go "a man a plan a canal panama") (go "a ")
  = [[]; go "man "; go "plan "; go "canal panama"].
Proof. reflexivity. Qed.

Example Split_empty : strings.Split [] (go " ") = [[]].
Proof. reflexivity. Qed.

Example Split_selected_line :
  strings.Split (go "AMBPark: AMBIENCE PARK -- park indoor outdoor") (go " ")
  = [go "AMBPark:"; go "AMBIENCE"; go "PARK"; go "--"; go "park"; go "indoor"; go "outdoor"].
Proof. reflexivity. Qed.

Example TrimRight_colon : strings.TrimRight (go "AMBPark:") (go ":") = go "AMBPark".
Proof. reflexivity. Qed.

Example Contains_inside : strings.Contains (go "seafood") (go "foo") = true.
Proof. reflexivity. Qed.

Example Contains_absent : strings.Contains (go "seafood") (go "bar") = false.
Proof. reflexivity. Qed.

Example Join_three : strings.Join [go "foo"; go "bar"; go "baz"] (go ", ") = go "foo, bar, baz".
Proof. reflexivity. Qed.

Example Ext_last_dot : filepath.Ext (go "take.01.wav") = go ".wav".
Proof. reflexivity. Qed.

Example Ext_none : filepath.Ext (go "a.b/take") = [].
Proof. reflexivity. Qed.

Example Base_last_element : filepath.Base (go "/sounds/take.wav/") = go "take.wav".
Proof. reflexivity. Qed.

Example classify_flag_value : flag.classify (go "--y=false") = flag.flagArg (go "y") true (go "false").
Proof. reflexivity. Qed.

Example classify_file : flag.classify (go "take.wav") = flag.notFlag.
Proof. reflexivity. Qed.

Example scanWord_word : fmt.scanWord (go "  Yes please") = Some (go "Yes").
Proof. reflexivity. Qed.

Example scanWord_newline : fmt.scanWord [32; 10; 121] = None.
Proof. reflexivity. Qed.

Example ReadString_line :
  bufio.ReadString [go "ra"; go "in" ++ [NL] ++ go "lost"; go "next" ++ [NL]] NL []
  = (Ok (go "rain" ++ [NL]), [go "next" ++ [NL]]).
Proof. reflexivity. Qed.

Example ReadString_end : bufio.ReadString [go "no line end"] NL [] = (Err io_EOF, []).
Proof. reflexivity. Qed.

Example SortFunc_by_CatID :
  map ucs.c_CatID
    (slices.SortFunc ucs.byCatID
       [ucs.mkCategory [] [] (go "WATRSurf") [] []; ucs.mkCategory [] [] (go "AIRBlow") [] [];
        ucs.mkCategory [] [] (go "AMBPark") [] []])
  = [go "AIRBlow"; go "AMBPark"; go "WATRSurf"].
Proof. reflexivity. Qed.

(** ** Facts about the string functions *)

Section StringFacts.

Import strings.

Lemma Join_cons (e : gostring) (rest : list gostring) (sep : gostring) :
  rest ≠ [] -> Join (e :: rest) sep = e ++ sep ++ Join rest sep.
Proof. destruct rest; [congruence | reflexivity]. Qed.

Lemma HasPrefix_single (s : gostring) (c : rune) :
  HasPrefix s [c] = match s with [] => false | r :: _ => r =? c end.
Proof. destruct s as [|r s]; simpl; [reflexivity | apply andb_true_r]. Qed.

Lemma Contains_single (s : gostring) (c : rune) :
  Contains s [c] = true <-> c ∈ s.
Proof.
  induction s as [|r s IH].
  - simpl. split; [discriminate | intros H; inversion H].
  - cbn [Contains]. rewrite HasPrefix_single, orb_true_iff, IH, elem_of_cons.
    rewrite Z.eqb_eq. intuition congruence.
Qed.

Lemma Contains_single_false (s : gostring) (c : rune) :
  Contains s [c] = false <-> c ∉ s.
Proof.
  rewrite <- Contains_single. destruct (Contains s [c]); intuition congruence.
Qed.

Lemma dropWhile_app_stop (f : rune -> bool) (l : gostring) (x : rune) :
  f x = false -> dropWhile f (l ++ [x]) = dropWhile f l ++ [x].
Proof.
  intros Hx. induction l as [|r l IH]; simpl.
  - now rewrite Hx.
  - destruct (f r); [exact IH | reflexivity].
Qed.

Lemma dropWhile_head (f : rune -> bool) (l : gostring) :
  match dropWhile f l with [] => True | x :: _ => f x = false end.
Proof.
  induction l as [|r l IH]; simpl; [exact I|].
  destruct (f r) eqn:E; [exact IH | exact E].
Qed.

Lemma endsClean_snoc (l : gostring) (x : rune) :
  endsClean (l ++ [x]) <-> unicode.IsSpace x = false.
Proof.
  induction l as [|r l IH]; simpl; [reflexivity|].
  destruct (l ++ [x]) eqn:E; [destruct l; discriminate | exact IH].
Qed.

Lemma endsClean_rev_dropWhile (l : gostring) :
  endsClean (rev (dropWhile unicode.IsSpace l)).
Proof.
  pose proof (dropWhile_head unicode.IsSpace l) as H.
  destruct (dropWhile unicode.IsSpace l) as [|x t]; simpl; [exact I|].
  now apply endsClean_snoc.
Qed.

Lemma TrimSpace_endsClean (s : gostring) : endsClean (TrimSpace s).
Proof. apply endsClean_rev_dropWhile. Qed.

Lemma TrimSpace_startsClean (s : gostring) : startsClean (TrimSpace s).
Proof.
  unfold TrimSpace, TrimRightFunc, TrimLeftFunc.
  pose proof (dropWhile_head unicode.IsSpace s) as H.
  destruct (dropWhile unicode.IsSpace s) as [|x t]; simpl; [exact I|].
  rewrite dropWhile_app_stop by exact H.
  rewrite rev_app_distr. simpl. exact H.
Qed.

Lemma fieldsLoop_nonempty (s : gostring) (cur : option gostring) :
  s ≠ [] -> endsClean s -> fieldsLoop unicode.IsSpace s cur ≠ [].
Proof.
  revert cur. induction s as [|x s IH]; intros cur Hne Hc; [congruence|].
  destruct s as [|y t].
  - simpl in Hc. simpl. rewrite Hc. discriminate.
  - change (endsClean (y :: t)) in Hc.
    assert (Hyt : y :: t ≠ []) by discriminate.
    remember (y :: t) as s' eqn:Es'. clear Es'.
    cbn [fieldsLoop]. destruct (unicode.IsSpace x).
    + destruct cur; [discriminate | now apply IH].
    + now apply IH.
Qed.

(** Joining the fields with hyphens is collapsing the runs. *)
Lemma fieldsLoop_collapse (s : gostring) :
  endsClean s ->
  (forall acc, Join (fieldsLoop unicode.IsSpace s (Some acc)) [hyphen]
               = rev acc ++ spec.collapseRuns false s)
  /\ Join (fieldsLoop unicode.IsSpace s None) [hyphen] = spec.collapseRuns true s.
Proof.
  induction s as [|x s IH]; intros Hc.
  - split; [intros acc; simpl; now rewrite app_nil_r | reflexivity].
  - assert (Hs : endsClean s) by (destruct s; [exact I | exact Hc]).
    destruct (IH Hs) as [IHsome IHnone].
    cbn [fieldsLoop spec.collapseRuns].
    destruct (unicode.IsSpace x) eqn:Ex.
    + assert (Hne : s ≠ []).
      { intros ->. simpl in Hc. congruence. }
      split; [|exact IHnone].
      intros acc. rewrite Join_cons by (apply fieldsLoop_nonempty; assumption).
      now rewrite IHnone.
    + split.
      * intros acc. rewrite IHsome. simpl. now rewrite <- app_assoc.
      * simpl. now rewrite IHsome.
Qed.

Lemma collapseRuns_start (s : gostring) :
  startsClean s -> spec.collapseRuns true s = spec.collapseRuns false s.
Proof. destruct s as [|x s]; simpl; [reflexivity | now intros ->]. Qed.

Lemma Join_Fields_normalize (line : gostring) :
  Join (Fields (TrimSpace line)) [hyphen] = spec.normalize line.
Proof.
  unfold Fields, FieldsFunc, spec.normalize.
  destruct (fieldsLoop_collapse (TrimSpace line) (TrimSpace_endsClean line)) as [_ ->].
  apply collapseRuns_start, TrimSpace_startsClean.
Qed.

Lemma collapseRuns_elem (b : bool) (s : gostring) (x : rune) :
  x ∈ spec.collapseRuns b s -> x = hyphen \/ x ∈ s.
Proof.
  revert b. induction s as [|r s IH]; intros b; simpl; [intros H; inversion H|].
  destruct (unicode.IsSpace r).
  - destruct b.
    + intros H. destruct (IH _ H); [now left | right; now apply list_elem_of_further].
    + rewrite elem_of_cons. intros [->|H]; [now left|].
      destruct (IH _ H); [now left | right; now apply list_elem_of_further].
  - rewrite !elem_of_cons. intros [->|H]; [right; now left|].
    destruct (IH _ H); [now left | right; now right].
Qed.

Lemma collapseRuns_no_space (b : bool) (s : gostring) (x : rune) :
  x ∈ spec.collapseRuns b s -> unicode.IsSpace x = false.
Proof.
  revert b. induction s as [|r s IH]; intros b; simpl; [intros H; inversion H|].
  destruct (unicode.IsSpace r) eqn:E.
  - destruct b; [apply IH|].
    rewrite elem_of_cons. intros [->|H]; [reflexivity | eapply IH, H].
  - rewrite elem_of_cons. intros [->|H]; [exact E | eapply IH, H].
Qed.

End StringFacts.

Section SplitJoin.

Import strings.

Lemma splitLoop_piece (c : rune) (seg acc : gostring) :
  c ∉ seg -> splitLoop [c] 0 seg acc = [rev acc ++ seg].
Proof.
  revert acc. induction seg as [|r seg IH]; intros acc Hc.
  - simpl. now rewrite app_nil_r.
  - apply not_elem_of_cons in Hc as [Hr Hc].
    cbn [splitLoop]. rewrite HasPrefix_single.
    destruct (Z.eqb_spec r c) as [->|_]; [congruence|].
    rewrite IH by exact Hc. simpl. now rewrite <- app_assoc.
Qed.

Lemma splitLoop_piece_sep (c : rune) (seg more acc : gostring) :
  c ∉ seg ->
  splitLoop [c] 0 (seg ++ c :: more) acc = (rev acc ++ seg) :: splitLoop [c] 0 more [].
Proof.
  revert acc. induction seg as [|r seg IH]; intros acc Hc.
  - cbn [app splitLoop]. rewrite HasPrefix_single, Z.eqb_refl.
    simpl. now rewrite app_nil_r.
  - apply not_elem_of_cons in Hc as [Hr Hc].
    cbn [app splitLoop]. rewrite HasPrefix_single.
    destruct (Z.eqb_spec r c) as [->|_]; [congruence|].
    rewrite IH by exact Hc. simpl. now rewrite <- app_assoc.
Qed.

(** Splitting at the delimiter undoes joining with it, when no piece
    holds the delimiter. *)
Lemma Split_Join (c : rune) (segs : list gostring) :
  segs ≠ [] -> Forall (fun seg => c ∉ seg) segs ->
  Split (Join segs [c]) [c] = segs.
Proof.
  unfold Split. induction segs as [|e rest IH]; intros Hne Hall; [congruence|].
  apply Forall_cons in Hall as [He Hrest].
  destruct rest as [|e' rest'].
  - simpl. now rewrite splitLoop_piece.
  - rewrite Join_cons by discriminate.
    cbn [app]. rewrite splitLoop_piece_sep by exact He.
    simpl rev. cbn [app]. f_equal. now apply IH.
Qed.

End SplitJoin.

(** ** Rendering *)

Section Rendering.

Import ucs.

Lemma Render_segments (f : Filename) (ext : gostring) :
  Render f ext = strings.Join (segments f) [underscore] ++ ext.
Proof.
  unfold Render, segments.
  destruct (decide (UserData f = [])) as [E|E].
  - now rewrite bool_decide_eq_false_2, bool_decide_eq_true_2 by tauto.
  - now rewrite bool_decide_eq_true_2, bool_decide_eq_false_2 by tauto.
Qed.

Lemma Render_concat (f : Filename) (ext : gostring) :
  Render f ext
    = CatID f ++ [underscore] ++ FXName f ++ [underscore] ++ CreatorID f
      ++ [underscore] ++ SourceID f
      ++ (if bool_decide (UserData f = []) then [] else [underscore] ++ UserData f)
      ++ ext.
Proof.
  rewrite Render_segments. unfold segments.
  destruct (bool_decide (UserData f = [])); simpl;
    repeat first [rewrite <- app_assoc | rewrite <- app_comm_cons]; reflexivity.
Qed.

(** C1.  [Render] joins CatID, FXName, CreatorID and SourceID with
    underscores in that order, adds an underscore and UserData only when
    UserData is not empty, and puts the extension right after, unchanged.
    The joined segments are the five fields when UserData is not empty and
    the four others when it is; when no field holds an underscore, these
    are exactly the pieces between the underscores of the output before
    the extension. *)
Theorem Render_layout (f : Filename) (ext : gostring) :
  Render f ext
    = CatID f ++ [underscore] ++ FXName f ++ [underscore] ++ CreatorID f
      ++ [underscore] ++ SourceID f
      ++ (if bool_decide (UserData f = []) then [] else [underscore] ++ UserData f)
      ++ ext
  /\ Render f ext = Render f [] ++ ext
  /\ Render f [] = strings.Join (segments f) [underscore]
  /\ segments f = (if bool_decide (UserData f = [])
                   then [CatID f; FXName f; CreatorID f; SourceID f]
                   else [CatID f; FXName f; CreatorID f; SourceID f; UserData f])
  /\ length (segments f) = (if bool_decide (UserData f = []) then 4 else 5)%nat
  /\ (Forall spec.delimiterFree [CatID f; FXName f; CreatorID f; SourceID f; UserData f] ->
      strings.Split (Render f []) [underscore] = segments f).
Proof.
  split; [apply Render_concat|].
  rewrite !Render_segments, app_nil_r.
  repeat split.
  - unfold segments. now destruct (bool_decide (UserData f = [])).
  - unfold segments. now destruct (bool_decide (UserData f = [])).
  - intros Hfree. apply Split_Join.
    + unfold segments. discriminate.
    + unfold segments, spec.delimiterFree in *.
      repeat (apply Forall_cons in Hfree as [? Hfree]).
      destruct (bool_decide (UserData f = [])); simpl; repeat constructor; assumption.
Qed.

Lemma Render_layout_witness :
  Render clippy (go ".wav")
    = go "AMBPark_Central Park Bethesda Fountain_Buddin_Phonogrifter_Clippy.wav"
  /\ strings.Split (Render clippy []) [underscore]
     = [go "AMBPark"; go "Central Park Bethesda Fountain"; go "Buddin";
        go "Phonogrifter"; go "Clippy"].
Proof.
  destruct (Render_layout clippy (go ".wav")) as (H1 & _ & _ & _ & _ & H6).
  split.
  - rewrite H1. vm_compute. reflexivity.
  - rewrite H6; [vm_compute; reflexivity|].
    unfold spec.delimiterFree.
    repeat constructor; vm_compute; intros H; apply list_elem_of_In in H;
      simpl in H; intuition discriminate.
Defined.

Example Render_without_UserData :
  Render (mkFilename (go "AMBPark") (go "Central Park Bethesda Fountain") (go "Buddin")
                     (go "Phonogrifter") []) (go ".wav")
  = go "AMBPark_Central Park Bethesda Fountain_Buddin_Phonogrifter.wav".
Proof. reflexivity. Qed.

End Rendering.

(** ** The field prompt *)

Section Prompting.

Import renamer.
Context (w : World) (r : Renamer).

Lemma ReadString_shorter (input : Stdin) (delim : rune) (acc text : gostring)
    (rest : Stdin) :
  bufio.ReadString input delim acc = (Ok text, rest) ->
  (length rest < length input)%nat.
Proof.
  revert acc. induction input as [|c input IH]; intros acc H; simpl in H.
  - discriminate.
  - destruct (bufio.upTo delim c).
    + injection H as _ <-. simpl. lia.
    + apply IH in H. simpl. lia.
Qed.

Lemma ReadString_Err (input : Stdin) (delim : rune) (acc : gostring)
    (e : error) (rest : Stdin) :
  bufio.ReadString input delim acc = (Err e, rest) -> e = io_EOF /\ rest = [].
Proof.
  revert acc. induction input as [|c input IH]; intros acc H; simpl in H.
  - now injection H as <- <-.
  - destruct (bufio.upTo delim c); [discriminate | eauto].
Qed.

(** One round of the loop, as the source writes it. *)
Lemma promptLoop_unfold (fieldName : gostring) (req : requirement) (st : State) :
  promptLoop r fieldName req st =
  match bufio.ReadString (stdin st) NL [] with
  | (Err e, rest) =>
      (Err e, mkState rest (trace st ++ [EvWrite (Stdout r) (fieldName ++ go ": ")]))
  | (Ok text, rest) =>
      let prompted := trace st ++ [EvWrite (Stdout r) (fieldName ++ go ": ")] in
      let trimmed := strings.TrimSpace text in
      if isRequired req && bool_decide (trimmed = []) then
        promptLoop r fieldName req
          (mkState rest (prompted ++
             [EvWrite (Stderr r) (go "Invalid: " ++ fieldName ++ go " is required" ++ [NL])]))
      else if strings.Contains trimmed [underscore] then
        promptLoop r fieldName req
          (mkState rest (prompted ++ [EvWrite (Stderr r) (delimiterMessage ++ [NL])]))
      else (Ok (strings.Join (strings.Fields trimmed) [hyphen]), mkState rest prompted)
  end.
Proof.
  rewrite promptLoop_equation_1.
  assert (H : forall p (Hp : bufio.ReadString (stdin st) NL [] = p),
    promptLoop_unfold_clause_1 r fieldName req st (exist _ p Hp) =
    match p with
    | (Err e, rest) =>
        (Err e, mkState rest (trace st ++ [EvWrite (Stdout r) (fieldName ++ go ": ")]))
    | (Ok text, rest) =>
        let prompted := trace st ++ [EvWrite (Stdout r) (fieldName ++ go ": ")] in
        let trimmed := strings.TrimSpace text in
        if isRequired req && bool_decide (trimmed = []) then
          promptLoop r fieldName req
            (mkState rest (prompted ++
               [EvWrite (Stderr r) (go "Invalid: " ++ fieldName ++ go " is required" ++ [NL])]))
        else if strings.Contains trimmed [underscore] then
          promptLoop r fieldName req
            (mkState rest (prompted ++ [EvWrite (Stderr r) (delimiterMessage ++ [NL])]))
        else (Ok (strings.Join (strings.Fields trimmed) [hyphen]), mkState rest prompted)
    end).
  { intros [[text|e] rest] Hp; simp promptLoop; reflexivity. }
  apply (H _ eq_refl).
Qed.

(** Induction on the rounds of the loop: the input gets shorter. *)
Lemma promptLoop_rounds (P : State -> Prop) :
  (forall st, (forall st', (length (stdin st') < length (stdin st))%nat -> P st') -> P st) ->
  forall st, P st.
Proof.
  intros step st.
  remember (length (stdin st)) as n eqn:En. revert st En.
  induction n as [n IH] using lt_wf_ind. intros st ->.
  apply step. intros st' Hlt. now apply (IH _ Hlt).
Qed.

Lemma promptField_interactive (fieldName : gostring) (req : requirement)
    (envOverrideVar : gostring) (st : State) :
  envOverrideVar = [] \/ Getenv w envOverrideVar = [] ->
  promptField w r fieldName req envOverrideVar st = promptLoop r fieldName req st.
Proof.
  intros H. unfold promptField.
  destruct H as [-> | ->]; [reflexivity|].
  now rewrite andb_comm.
Qed.

(** The three outcomes of a round. *)
Lemma promptLoop_reject_delimiter (fieldName : gostring) (req : requirement)
    (st : State) (text : gostring) (rest : Stdin) :
  bufio.ReadString (stdin st) NL [] = (Ok text, rest) ->
  strings.Contains (strings.TrimSpace text) [underscore] = true ->
  promptLoop r fieldName req st =
  promptLoop r fieldName req
    (mkState rest (trace st ++ [EvWrite (Stdout r) (fieldName ++ go ": ");
                                EvWrite (Stderr r) (delimiterMessage ++ [NL])])).
Proof.
  intros Hread Hc. rewrite promptLoop_unfold, Hread. cbv zeta. rewrite Hc.
  assert (E : strings.TrimSpace text ≠ []).
  { intros E. rewrite E in Hc. discriminate. }
  rewrite (bool_decide_eq_false_2 _ E), andb_false_r.
  now rewrite <- app_assoc.
Qed.

Lemma promptLoop_reject_empty (fieldName : gostring) (st : State)
    (text : gostring) (rest : Stdin) :
  bufio.ReadString (stdin st) NL [] = (Ok text, rest) ->
  strings.TrimSpace text = [] ->
  promptLoop r fieldName required st =
  promptLoop r fieldName required
    (mkState rest (trace st ++ [EvWrite (Stdout r) (fieldName ++ go ": ");
                                EvWrite (Stderr r)
                                  (go "Invalid: " ++ fieldName ++ go " is required" ++ [NL])])).
Proof.
  intros Hread E. rewrite promptLoop_unfold, Hread. cbv zeta. rewrite E.
  simpl. now rewrite <- app_assoc.
Qed.

Lemma promptLoop_accept (fieldName : gostring) (req : requirement)
    (st : State) (text : gostring) (rest : Stdin) :
  bufio.ReadString (stdin st) NL [] = (Ok text, rest) ->
  (req = required -> strings.TrimSpace text ≠ []) ->
  strings.Contains (strings.TrimSpace text) [underscore] = false ->
  promptLoop r fieldName req st =
  (Ok (spec.normalize text),
   mkState rest (trace st ++ [EvWrite (Stdout r) (fieldName ++ go ": ")])).
Proof.
  intros Hread Hreq Hc. rewrite promptLoop_unfold, Hread. cbv zeta. rewrite Hc.
  rewrite Join_Fields_normalize.
  destruct req; simpl; [|reflexivity].
  now rewrite bool_decide_eq_false_2 by auto.
Qed.

(** What the loop returns when it returns a value: the normal form of a
    line that holds no delimiter. *)
Lemma promptLoop_accepted (fieldName : gostring) (req : requirement) (st : State) :
  forall v st', promptLoop r fieldName req st = (Ok v, st') ->
  exists text, v = spec.normalize text
               /\ strings.Contains (strings.TrimSpace text) [underscore] = false.
Proof.
  induction st as [st IH] using promptLoop_rounds. intros v st'.
  rewrite promptLoop_unfold.
  destruct (bufio.ReadString (stdin st) NL []) as [[text|e] rest] eqn:Hread;
    [|discriminate].
  apply ReadString_shorter in Hread. cbv zeta.
  destruct (isRequired req && bool_decide (strings.TrimSpace text = [])).
  { apply IH. exact Hread. }
  destruct (strings.Contains (strings.TrimSpace text) [underscore]) eqn:Hc.
  { apply IH. exact Hread. }
  intros H. injection H as <- _. exists text.
  now rewrite Join_Fields_normalize.
Qed.

Lemma normalize_delimiterFree (text : gostring) :
  strings.Contains (strings.TrimSpace text) [underscore] = false ->
  spec.delimiterFree (spec.normalize text).
Proof.
  intros Hc Hin. apply Contains_single_false in Hc.
  apply collapseRuns_elem in Hin as [Hin|Hin]; [discriminate | contradiction].
Qed.

(** The loop only writes. *)
Lemma promptLoop_trace (fieldName : gostring) (req : requirement) (st : State) :
  forall res st', promptLoop r fieldName req st = (res, st') ->
  exists evs, trace st' = trace st ++ evs /\ Forall isWrite evs.
Proof.
  induction st as [st IH] using promptLoop_rounds. intros res st'.
  rewrite promptLoop_unfold.
  destruct (bufio.ReadString (stdin st) NL []) as [[text|e] rest] eqn:Hread.
  - apply ReadString_shorter in Hread. cbv zeta.
    destruct (isRequired req && bool_decide (strings.TrimSpace text = [])).
    { intros H. apply IH in H as (evs & -> & Hevs); [|exact Hread].
      simpl. rewrite <- !app_assoc. eexists. split; [reflexivity|].
      repeat (constructor; [exact I|]). exact Hevs. }
    destruct (strings.Contains (strings.TrimSpace text) [underscore]).
    { intros H. apply IH in H as (evs & -> & Hevs); [|exact Hread].
      simpl. rewrite <- !app_assoc. eexists. split; [reflexivity|].
      repeat (constructor; [exact I|]). exact Hevs. }
    intros H. injection H as _ <-. simpl. eexists. split; [reflexivity|].
    repeat constructor.
  - intros H. injection H as _ <-. simpl. eexists. split; [reflexivity|].
    repeat constructor.
Qed.

End Prompting.

(** ** Lines as words and gaps *)

Section WordsAndGaps.

Import strings.

Lemma dropWhile_blank (lead s : gostring) :
  blank lead -> dropWhile unicode.IsSpace (lead ++ s) = dropWhile unicode.IsSpace s.
Proof.
  unfold blank. induction lead as [|x lead IH]; simpl; [reflexivity|].
  intros [-> H]%andb_true_iff. auto.
Qed.

Lemma dropWhile_startsClean (s : gostring) :
  startsClean s -> dropWhile unicode.IsSpace s = s.
Proof. destruct s as [|x s]; simpl; [reflexivity | now intros ->]. Qed.

Lemma endsClean_rev (s : gostring) : endsClean s -> startsClean (rev s).
Proof.
  induction s as [|x s IH]; [exact id|].
  destruct s as [|y t]; [exact id|].
  intros H. specialize (IH H). simpl in *.
  destruct (rev t ++ [y]) eqn:E; [destruct (rev t); discriminate | exact IH].
Qed.

Lemma blank_rev (s : gostring) : blank s -> blank (rev s).
Proof.
  unfold blank. rewrite !forallb_forall. intros H x Hx. apply H.
  now apply in_rev.
Qed.

Lemma TrimSpace_strip (lead body trail : gostring) :
  blank lead -> blank trail -> body ≠ [] -> startsClean body -> endsClean body ->
  TrimSpace (lead ++ body ++ trail) = body.
Proof.
  intros Hl Ht Hne Hs He. unfold TrimSpace, TrimLeftFunc, TrimRightFunc.
  rewrite (dropWhile_blank _ _ Hl).
  rewrite (dropWhile_startsClean (body ++ trail))
    by (destruct body; [congruence | exact Hs]).
  rewrite rev_app_distr, (dropWhile_blank _ _ (blank_rev _ Ht)).
  rewrite (dropWhile_startsClean _ (endsClean_rev _ He)). apply rev_involutive.
Qed.

Lemma collapseRuns_word (b : bool) (word s : gostring) :
  solid word -> spec.collapseRuns b (word ++ s) = word ++ spec.collapseRuns false s.
Proof.
  intros [Hne Hw]. revert b. induction word as [|x word IH]; intros b; [congruence|].
  simpl in Hw. apply andb_true_iff in Hw as [Hx Hw]. apply negb_true_iff in Hx.
  simpl. rewrite Hx. f_equal.
  destruct word as [|y word]; [reflexivity|].
  apply IH; [discriminate | exact Hw].
Qed.

Lemma collapseRuns_gap_in (gap s : gostring) :
  blank gap -> spec.collapseRuns true (gap ++ s) = spec.collapseRuns true s.
Proof.
  unfold blank. induction gap as [|x gap IH]; simpl; [reflexivity|].
  intros [-> H]%andb_true_iff. auto.
Qed.

Lemma collapseRuns_gap (gap s : gostring) :
  blank gap -> gap ≠ [] ->
  spec.collapseRuns false (gap ++ s) = hyphen :: spec.collapseRuns true s.
Proof.
  destruct gap as [|x gap]; [congruence|]. unfold blank. simpl.
  intros [-> H]%andb_true_iff _. f_equal. now apply collapseRuns_gap_in.
Qed.

Lemma collapseRuns_words (rest : list (gostring * gostring)) :
  gapped rest -> forall b word, solid word ->
  spec.collapseRuns b (word ++ gapWords rest) = Join (word :: map snd rest) [hyphen].
Proof.
  induction rest as [|[gap word'] rest IH]; intros Hg b word Hw.
  - rewrite collapseRuns_word by exact Hw. simpl. apply app_nil_r.
  - apply Forall_cons in Hg as [(Hgap & Hgne & Hw') Hg]. simpl in Hgap, Hgne, Hw'.
    unfold gapWords. cbn [map concat fst snd]. fold (gapWords rest).
    rewrite collapseRuns_word by exact Hw.
    rewrite <- app_assoc, collapseRuns_gap by assumption.
    rewrite (IH Hg true word' Hw'). cbn [map snd].
    now rewrite (Join_cons word) by discriminate.
Qed.

Lemma endsClean_app (s t : gostring) : t ≠ [] -> endsClean t -> endsClean (s ++ t).
Proof.
  intros Hne Ht. induction s as [|x s IH]; [exact Ht|].
  simpl. destruct (s ++ t) eqn:E; [|exact IH].
  destruct s; [simpl in E; congruence | discriminate].
Qed.

Lemma solid_endsClean (word : gostring) : solid word -> endsClean word.
Proof.
  intros [Hne Hw]. induction word as [|x word IH]; [exact I|].
  simpl in Hw. apply andb_true_iff in Hw as [Hx Hw]. apply negb_true_iff in Hx.
  destruct word as [|y word]; [exact Hx|].
  apply IH; [discriminate | exact Hw].
Qed.

Lemma words_endsClean (rest : list (gostring * gostring)) :
  gapped rest -> forall word, solid word -> endsClean (word ++ gapWords rest).
Proof.
  induction rest as [|[gap word'] rest IH]; intros Hg word Hw.
  - unfold gapWords. simpl. rewrite app_nil_r. now apply solid_endsClean.
  - apply Forall_cons in Hg as [(_ & _ & Hw') Hg]. simpl in Hw'.
    unfold gapWords. cbn [map concat fst snd]. fold (gapWords rest).
    rewrite <- app_assoc, app_assoc.
    apply endsClean_app; [|now apply IH].
    destruct Hw' as [Hne _]. destruct word'; [congruence | discriminate].
Qed.

(** The normal form of a line of words and gaps: the words, joined by
    single hyphens. *)
Lemma normalize_words (lead trail word : gostring) (rest : list (gostring * gostring)) :
  blank lead -> blank trail -> solid word -> gapped rest ->
  spec.normalize (lead ++ (word ++ gapWords rest) ++ trail)
  = Join (word :: map snd rest) [hyphen].
Proof.
  intros Hl Ht Hw Hg. unfold spec.normalize.
  rewrite TrimSpace_strip; try assumption.
  - now apply collapseRuns_words.
  - destruct Hw as [Hne _]. destruct word; [congruence | discriminate].
  - destruct Hw as [Hne Hw]. destruct word as [|x word]; [congruence|].
    simpl in Hw. apply andb_true_iff in Hw as [Hx _]. now apply negb_true_iff in Hx.
  - now apply words_endsClean.
Qed.

End WordsAndGaps.

(** ** What the field prompt accepts and rejects *)

Section PromptProperties.

Import renamer.
Context (w : World) (r : Renamer).

(** C3.  When the field is prompted for and the trimmed line holds an
    underscore, the round writes the prompt and the error line and the loop
    goes on with the next round on the rest of the input; and no value the
    prompt returns, for a required or an optional field, holds an
    underscore. *)
Theorem promptField_rejects_delimiter (fieldName : gostring) (req : requirement)
    (envOverrideVar : gostring) (st : State) (text : gostring) (rest : Stdin) :
  envOverrideVar = [] \/ Getenv w envOverrideVar = [] ->
  bufio.ReadString (stdin st) NL [] = (Ok text, rest) ->
  strings.Contains (strings.TrimSpace text) [underscore] = true ->
  promptField w r fieldName req envOverrideVar st
  = promptField w r fieldName req envOverrideVar
      (mkState rest (trace st ++ [EvWrite (Stdout r) (fieldName ++ go ": ");
                                  EvWrite (Stderr r) (delimiterMessage ++ [NL])]))
  /\ (forall st0 v st', promptField w r fieldName req envOverrideVar st0 = (Ok v, st') ->
      strings.Contains v [underscore] = false).
Proof.
  intros Hint Hread Hc. split.
  - rewrite !promptField_interactive by exact Hint.
    now apply promptLoop_reject_delimiter with (text := text).
  - intros st0 v st'. rewrite promptField_interactive by exact Hint.
    intros H. apply promptLoop_accepted in H as (line & -> & Hline).
    apply Contains_single_false. now apply normalize_delimiterFree.
Qed.

(** C4.  When the field is prompted for and the line read is accepted
    (not empty after trimming if the field is required, no underscore), the
    value returned is the line with the white space at both ends removed and
    every run of white space inside replaced by one hyphen; it holds no
    white space; and every value the prompt returns is obtained this way.
    For a line made of words with white space around and between them, that
    value is the words joined by single hyphens.  The line [a   b  c] gives
    [a-b-c]. *)
Theorem promptField_normalizes (fieldName : gostring) (req : requirement)
    (envOverrideVar : gostring) (st : State) (text : gostring) (rest : Stdin) :
  envOverrideVar = [] \/ Getenv w envOverrideVar = [] ->
  bufio.ReadString (stdin st) NL [] = (Ok text, rest) ->
  (req = required -> strings.TrimSpace text ≠ []) ->
  strings.Contains (strings.TrimSpace text) [underscore] = false ->
  promptField w r fieldName req envOverrideVar st
  = (Ok (spec.normalize text),
     mkState rest (trace st ++ [EvWrite (Stdout r) (fieldName ++ go ": ")]))
  /\ (forall x, x ∈ spec.normalize text -> unicode.IsSpace x = false)
  /\ (forall st0 v st', promptField w r fieldName req envOverrideVar st0 = (Ok v, st') ->
      exists line, v = spec.normalize line)
  /\ (forall lead trail word rest',
      blank lead -> blank trail -> solid word -> gapped rest' ->
      spec.normalize (lead ++ (word ++ gapWords rest') ++ trail)
      = strings.Join (word :: map snd rest') [hyphen])
  /\ spec.normalize (go "a   b  c" ++ [NL]) = go "a-b-c".
Proof.
  intros Hint Hread Hreq Hc. split; [|split; [|split; [|split]]].
  - rewrite promptField_interactive by exact Hint.
    now apply promptLoop_accept.
  - intros x. apply collapseRuns_no_space.
  - intros st0 v st'. rewrite promptField_interactive by exact Hint.
    intros H. apply promptLoop_accepted in H as (line & -> & _). now exists line.
  - intros lead trail word rest'. apply normalize_words.
  - reflexivity.
Qed.

(** C5.  When the field has an override name and that environment
    variable is set and not empty, [promptField] returns its value as it is
    and leaves the state as it was: nothing is written, nothing is read. *)
Theorem promptField_override (fieldName : gostring) (req : requirement)
    (envOverrideVar : gostring) (st : State) :
  envOverrideVar ≠ [] ->
  Getenv w envOverrideVar ≠ [] ->
  promptField w r fieldName req envOverrideVar st = (Ok (Getenv w envOverrideVar), st).
Proof.
  intros Hvar Hval. unfold promptField.
  now rewrite !bool_decide_eq_true_2.
Qed.

End PromptProperties.

Lemma promptField_rejects_delimiter_witness :
  renamer.promptField (session ∅ [] []) terminal (go "FXName") renamer.required []
    (typed [go "rain_heavy"; go "rain heavy"])
  = renamer.promptField (session ∅ [] []) terminal (go "FXName") renamer.required []
      (mkState [go "rain heavy" ++ [NL]]
         [EvWrite os_Stdout (go "FXName: ");
          EvWrite os_Stderr (renamer.delimiterMessage ++ [NL])])
  /\ fst (renamer.promptField (session ∅ [] []) terminal (go "FXName") renamer.required []
            (typed [go "rain_heavy"; go "rain heavy"]))
     = Ok (go "rain-heavy").
Proof.
  split.
  - apply (promptField_rejects_delimiter (session ∅ [] []) terminal (go "FXName")
             renamer.required [] (typed [go "rain_heavy"; go "rain heavy"])
             (go "rain_heavy" ++ [NL]) [go "rain heavy" ++ [NL]]).
    + left. reflexivity.
    + vm_compute. reflexivity.
    + vm_compute. reflexivity.
  - vm_compute. reflexivity.
Defined.

Lemma promptField_normalizes_witness :
  renamer.promptField (session ∅ [] []) terminal (go "FXName") renamer.required []
    (typed [go "  a   b  c "])
  = (Ok (go "a-b-c"), mkState [] [EvWrite os_Stdout (go "FXName: ")]).
Proof.
  destruct (promptField_normalizes (session ∅ [] []) terminal (go "FXName")
              renamer.required [] (typed [go "  a   b  c "])
              (go "  a   b  c " ++ [NL]) []) as (H & _).
  - left. reflexivity.
  - vm_compute. reflexivity.
  - intros _. vm_compute. discriminate.
  - vm_compute. reflexivity.
  - rewrite H. vm_compute. reflexivity.
Defined.

Lemma promptField_override_witness :
  renamer.promptField (session {[ go "UCS_CREATOR_ID" := go " Bud_din  x " ]} [] [])
    terminal (go "CreatorID") renamer.required (go "UCS_CREATOR_ID")
    (typed [go "ignored"])
  = (Ok (go " Bud_din  x "), typed [go "ignored"]).
Proof.
  rewrite (promptField_override
             (session {[ go "UCS_CREATOR_ID" := go " Bud_din  x " ]} [] [])
             terminal (go "CreatorID") renamer.required (go "UCS_CREATOR_ID")
             (typed [go "ignored"])).
  - vm_compute. reflexivity.
  - vm_compute. discriminate.
  - vm_compute. discriminate.
Defined.

(** ** The optional field, and what the prompts write *)

Section FieldProperties.

Import renamer.
Context (w : World) (r : Renamer).

Lemma dropWhile_all (f : rune -> bool) (s : gostring) :
  forallb f s = true -> strings.dropWhile f s = [].
Proof.
  induction s as [|x s IH]; simpl; [reflexivity|].
  intros [-> Hs]%andb_true_iff. auto.
Qed.

Lemma TrimSpace_blank (s : gostring) :
  forallb unicode.IsSpace s = true -> strings.TrimSpace s = [].
Proof.
  intros H. unfold strings.TrimSpace, strings.TrimLeftFunc, strings.TrimRightFunc.
  rewrite (dropWhile_all _ _ H). reflexivity.
Qed.

Lemma promptField_blank_optional (fieldName envOverrideVar : gostring) (st : State)
    (text : gostring) (rest : Stdin) :
  envOverrideVar = [] \/ Getenv w envOverrideVar = [] ->
  bufio.ReadString (stdin st) NL [] = (Ok text, rest) ->
  forallb unicode.IsSpace text = true ->
  promptField w r fieldName optional envOverrideVar st
  = (Ok [], mkState rest (trace st ++ [EvWrite (Stdout r) (fieldName ++ go ": ")])).
Proof.
  intros Hint Hread Hblank.
  rewrite promptField_interactive by exact Hint.
  rewrite (promptLoop_accept r fieldName optional st text rest Hread).
  - unfold spec.normalize. now rewrite TrimSpace_blank.
  - discriminate.
  - now rewrite TrimSpace_blank.
Qed.

(** C9.  With no override for UserData, a line of white space only is
    taken at once as the empty value: one prompt, no error line, no second
    round.  When the three fields before were obtained, [promptFields] then
    returns the filename with an empty UserData, and its rendering ends
    with the SourceID followed by the extension. *)
Theorem promptField_blank_UserData (st : State) (text : gostring) (rest : Stdin) :
  Getenv w (go "UCS_USER_DATA") = [] ->
  bufio.ReadString (stdin st) NL [] = (Ok text, rest) ->
  forallb unicode.IsSpace text = true ->
  promptField w r (go "UserData") optional (go "UCS_USER_DATA") st
  = (Ok [], mkState rest (trace st ++ [EvWrite (Stdout r) (go "UserData: ")]))
  /\ (forall catID st0 fxName st1 creatorID st2 sourceID ext,
        promptField w r (go "FXName") required []
          (mkState (stdin st0)
                   (trace st0 ++ [EvWrite (Stdout r) (go "CatID: " ++ catID ++ [NL])]))
        = (Ok fxName, st1) -> fxName ≠ [] ->
        promptField w r (go "CreatorID") required (go "UCS_CREATOR_ID") st1
        = (Ok creatorID, st2) -> creatorID ≠ [] ->
        promptField w r (go "SourceID") required (go "UCS_SOURCE_ID") st2
        = (Ok sourceID, st) -> sourceID ≠ [] ->
        promptFields w r catID st0
        = (Ok (ucs.mkFilename catID fxName creatorID sourceID []),
           mkState rest (trace st ++ [EvWrite (Stdout r) (go "UserData: ")]))
        /\ ucs.Render (ucs.mkFilename catID fxName creatorID sourceID []) ext
           = catID ++ [underscore] ++ fxName ++ [underscore] ++ creatorID
             ++ [underscore] ++ sourceID ++ ext).
Proof.
  intros Henv Hread Hblank.
  assert (Huser : promptField w r (go "UserData") optional (go "UCS_USER_DATA") st
                  = (Ok [], mkState rest (trace st ++ [EvWrite (Stdout r) (go "UserData: ")]))).
  { apply promptField_blank_optional with (text := text); auto. }
  split; [exact Huser|].
  intros catID st0 fxName st1 creatorID st2 sourceID ext H1 N1 H2 N2 H3 N3.
  split.
  - unfold promptFields, mbind, M_bind, Fprint at 1.
    rewrite H1, (bool_decide_eq_false_2 _ N1).
    rewrite H2, (bool_decide_eq_false_2 _ N2).
    rewrite H3, (bool_decide_eq_false_2 _ N3).
    rewrite Huser. reflexivity.
  - rewrite Render_concat. reflexivity.
Qed.

(** A prompt only writes, whether it asks or takes the override. *)
Lemma promptField_trace (fieldName : gostring) (req : requirement)
    (envOverrideVar : gostring) (st : State) :
  forall res st', promptField w r fieldName req envOverrideVar st = (res, st') ->
  exists evs, trace st' = trace st ++ evs /\ Forall isWrite evs.
Proof.
  intros res st'. unfold promptField.
  destruct (_ && _).
  - intros H. injection H as _ <-. exists []. now rewrite app_nil_r.
  - apply promptLoop_trace.
Qed.

Lemma promptFields_trace (catID : gostring) (st : State) :
  forall res st', promptFields w r catID st = (res, st') ->
  exists evs, trace st' = trace st ++ evs /\ Forall isWrite evs.
Proof.
  intros res st'. unfold promptFields, mbind, M_bind, Fprint at 1, fail, mret, M_ret.
  destruct (promptField w r (go "FXName") _ _ _) as [[fx|e] s1] eqn:H1;
    apply promptField_trace in H1 as (ev1 & E1 & W1); simpl in E1.
  2: { intros H. injection H as _ <-. rewrite E1, <- app_assoc. eexists. split; [reflexivity|].
       constructor; [exact I | exact W1]. }
  destruct (bool_decide (fx = [])).
  { intros H. injection H as _ <-. rewrite E1, <- app_assoc. eexists. split; [reflexivity|].
    constructor; [exact I | exact W1]. }
  destruct (promptField w r (go "CreatorID") _ _ _) as [[cr|e] s2] eqn:H2;
    apply promptField_trace in H2 as (ev2 & E2 & W2).
  2: { intros H. injection H as _ <-. rewrite E2, E1, <- !app_assoc. eexists.
       split; [reflexivity|]. constructor; [exact I | now apply Forall_app]. }
  destruct (bool_decide (cr = [])).
  { intros H. injection H as _ <-. rewrite E2, E1, <- !app_assoc. eexists.
    split; [reflexivity|]. constructor; [exact I | now apply Forall_app]. }
  destruct (promptField w r (go "SourceID") _ _ _) as [[src|e] s3] eqn:H3;
    apply promptField_trace in H3 as (ev3 & E3 & W3).
  2: { intros H. injection H as _ <-. rewrite E3, E2, E1, <- !app_assoc. eexists.
       split; [reflexivity|]. constructor; [exact I | rewrite !Forall_app; auto]. }
  destruct (bool_decide (src = [])).
  { intros H. injection H as _ <-. rewrite E3, E2, E1, <- !app_assoc. eexists.
    split; [reflexivity|]. constructor; [exact I | rewrite !Forall_app; auto]. }
  destruct (promptField w r (go "UserData") _ _ _) as [[ud|e] s4] eqn:H4;
    apply promptField_trace in H4 as (ev4 & E4 & W4).
  all: intros H; injection H as _ <-; rewrite E4, E3, E2, E1, <- !app_assoc; eexists;
    (split; [reflexivity|]); constructor; [exact I | rewrite !Forall_app; auto].
Qed.

End FieldProperties.

Lemma promptField_blank_UserData_witness :
  renamer.promptFields (session ∅ [] []) terminal (go "AMBPark")
    (typed [go "rain"; go "Buddin"; go "Phonogrifter"; go "   "])
  = (Ok (ucs.mkFilename (go "AMBPark") (go "rain") (go "Buddin") (go "Phonogrifter") []),
     mkState []
       [EvWrite os_Stdout (go "CatID: AMBPark" ++ [NL]); EvWrite os_Stdout (go "FXName: ");
        EvWrite os_Stdout (go "CreatorID: "); EvWrite os_Stdout (go "SourceID: ");
        EvWrite os_Stdout (go "UserData: ")])
  /\ ucs.Render (ucs.mkFilename (go "AMBPark") (go "rain") (go "Buddin") (go "Phonogrifter") [])
       (go ".wav")
     = go "AMBPark_rain_Buddin_Phonogrifter.wav".
Proof.
  destruct (promptField_blank_UserData (session ∅ [] []) terminal
              (mkState [go "   " ++ [NL]]
                 [EvWrite os_Stdout (go "CatID: AMBPark" ++ [NL]);
                  EvWrite os_Stdout (go "FXName: ");
                  EvWrite os_Stdout (go "CreatorID: "); EvWrite os_Stdout (go "SourceID: ")])
              (go "   " ++ [NL]) []) as (_ & H).
  - vm_compute. reflexivity.
  - vm_compute. reflexivity.
  - vm_compute. reflexivity.
  - destruct (H (go "AMBPark")
                (typed [go "rain"; go "Buddin"; go "Phonogrifter"; go "   "])
                (go "rain")
                (mkState [go "Buddin" ++ [NL]; go "Phonogrifter" ++ [NL]; go "   " ++ [NL]]
                   [EvWrite os_Stdout (go "CatID: AMBPark" ++ [NL]);
                    EvWrite os_Stdout (go "FXName: ")])
                (go "Buddin")
                (mkState [go "Phonogrifter" ++ [NL]; go "   " ++ [NL]]
                   [EvWrite os_Stdout (go "CatID: AMBPark" ++ [NL]);
                    EvWrite os_Stdout (go "FXName: "); EvWrite os_Stdout (go "CreatorID: ")])
                (go "Phonogrifter") (go ".wav")) as (H1 & H2).
    + vm_compute. reflexivity.
    + vm_compute. discriminate.
    + vm_compute. reflexivity.
    + vm_compute. discriminate.
    + vm_compute. reflexivity.
    + vm_compute. discriminate.
    + split; [rewrite H1 | rewrite H2]; vm_compute; reflexivity.
Defined.

(** ** Resolving the category id *)

Section CategoryProperties.

Import renamer.
Context (w : World) (r : Renamer).

Lemma ContainsFunc_CatID (categories : list ucs.Category) (catID : gostring) :
  slices.ContainsFunc categories (fun c => bool_decide (ucs.c_CatID c = catID)) = true
  <-> exists c, c ∈ categories /\ ucs.c_CatID c = catID.
Proof.
  unfold slices.ContainsFunc. rewrite existsb_exists. split.
  - intros (c & Hin & Hc). exists c. split; [now apply list_elem_of_In|].
    now apply bool_decide_eq_true_1 in Hc.
  - intros (c & Hin & Hc). exists c. split; [now apply list_elem_of_In|].
    now apply bool_decide_eq_true_2.
Qed.

(** C6.  With UCS_CAT_ID set to a non-empty value and the catalog loaded:
    when no entry has that CatID, [buildFilename] returns the error
    "unknown CatID" and leaves the state as it was, so the selector was not
    run, nothing was written and nothing was read; when an entry has it,
    [buildFilename] is [promptFields] on that id, and all it does is
    write: the selector is not run. *)
Theorem buildFilename_override_catID (st : State) (catID : gostring)
    (categories : list ucs.Category) :
  Getenv w (go "UCS_CAT_ID") = catID ->
  catID ≠ [] ->
  ucs.Categories w = Ok categories ->
  ((forall c, c ∈ categories -> ucs.c_CatID c ≠ catID) ->
   buildFilename w r st = (Err (errorString (go "unknown CatID: " ++ catID)), st))
  /\ ((exists c, c ∈ categories /\ ucs.c_CatID c = catID) ->
      buildFilename w r st = promptFields w r catID st
      /\ forall res st', buildFilename w r st = (res, st') ->
         exists evs, trace st' = trace st ++ evs /\ Forall isWrite evs).
Proof.
  intros Henv Hne Hcat.
  assert (Hbuild : buildFilename w r st =
                   match validateCatID w catID with
                   | Some err => (Err err, st)
                   | None => promptFields w r catID st
                   end).
  { unfold buildFilename. rewrite Henv. now rewrite bool_decide_eq_true_2. }
  unfold validateCatID in Hbuild. rewrite Hcat in Hbuild.
  split.
  - intros Hnone. rewrite Hbuild.
    destruct (slices.ContainsFunc _ _) eqn:E; [|reflexivity].
    apply ContainsFunc_CatID in E as (c & Hin & Hc). now destruct (Hnone c Hin).
  - intros Hsome. apply ContainsFunc_CatID in Hsome. rewrite Hsome in Hbuild.
    simpl in Hbuild. split; [exact Hbuild|].
    intros res st'. rewrite Hbuild. apply promptFields_trace.
Qed.

(** When the selector ends with an exit error, [buildFilename] returns
    that error; it has run the selector and nothing else. *)
Lemma buildFilename_selector_exit (st : State) (status out : gostring) (input : Stdin) :
  Getenv w (go "UCS_CAT_ID") = [] ->
  cmd_Run w (FZFExec r) fzfArgs (go "FZF_DEFAULT_COMMAND=" ++ SelfCommand r) (stdin st)
  = (Some (exec_ExitError status), out, input) ->
  buildFilename w r st
  = (Err (exec_ExitError status),
     mkState input (trace st ++ [EvRun (FZFExec r) fzfArgs
                                   (go "FZF_DEFAULT_COMMAND=" ++ SelfCommand r)])).
Proof.
  intros Henv Hrun. unfold buildFilename. rewrite Henv, Hrun. reflexivity.
Qed.

(** When the selector gives no output without an exit error (it ended
    with status 0, or it could not be started), [buildFilename] goes on to
    [promptFields] with the empty category id. *)
Lemma buildFilename_no_choice (st : State) (err : option error) (out : gostring)
    (input : Stdin) :
  Getenv w (go "UCS_CAT_ID") = [] ->
  cmd_Run w (FZFExec r) fzfArgs (go "FZF_DEFAULT_COMMAND=" ++ SelfCommand r) (stdin st)
  = (err, out, input) ->
  match err with Some e => isExitError e = false | None => True end ->
  forallb unicode.IsSpace out = true ->
  buildFilename w r st
  = promptFields w r []
      (mkState input (trace st ++ [EvRun (FZFExec r) fzfArgs
                                     (go "FZF_DEFAULT_COMMAND=" ++ SelfCommand r)])).
Proof.
  intros Henv Hrun Herr Hout. unfold buildFilename. rewrite Henv, Hrun.
  rewrite (TrimSpace_blank _ Hout).
  destruct err as [e|]; [rewrite Herr|]; reflexivity.
Qed.

(** The same at the level of [Run]: with a source file that has an
    extension, the unknown category id is the first thing to fail. *)
Lemma Run_unknown_catID (st : State) (filename : gostring) (forceConfirm : bool)
    (info : FileInfo) (categories : list ucs.Category) :
  os_Stat w filename = Ok info -> fi_IsDir info = false ->
  filepath.Ext (fi_Name info) ≠ [] ->
  Getenv w (go "UCS_CAT_ID") ≠ [] ->
  ucs.Categories w = Ok categories ->
  (forall c, c ∈ categories -> ucs.c_CatID c ≠ Getenv w (go "UCS_CAT_ID")) ->
  Run w r filename forceConfirm st
  = (Err (errorString (go "unknown CatID: " ++ Getenv w (go "UCS_CAT_ID"))), st).
Proof.
  intros Hstat Hdir Hext Hne Hcat Hnone. unfold Run.
  rewrite Hstat, Hdir, (bool_decide_eq_false_2 _ Hext).
  unfold mbind, M_bind, buildFilename.
  rewrite (bool_decide_eq_true_2 _ Hne). unfold validateCatID. rewrite Hcat.
  destruct (slices.ContainsFunc _ _) eqn:E; [|reflexivity].
  apply ContainsFunc_CatID in E as (c & Hin & Hc). now destruct (Hnone c Hin).
Qed.

End CategoryProperties.

Lemma buildFilename_override_catID_witness :
  renamer.buildFilename (session {[ go "UCS_CAT_ID" := go "AMBPork" ]} [] (go "x")) terminal
    (typed [go "rain"])
  = (Err (errorString (go "unknown CatID: AMBPork")), typed [go "rain"])
  /\ renamer.buildFilename (session {[ go "UCS_CAT_ID" := go "AMBPark" ]} [] (go "x")) terminal
       (typed [go "rain"; go "Buddin"; go "Phonogrifter"; go "Clippy"])
     = renamer.promptFields (session {[ go "UCS_CAT_ID" := go "AMBPark" ]} [] (go "x"))
         terminal (go "AMBPark")
         (typed [go "rain"; go "Buddin"; go "Phonogrifter"; go "Clippy"]).
Proof.
  split.
  - destruct (buildFilename_override_catID
                (session {[ go "UCS_CAT_ID" := go "AMBPork" ]} [] (go "x")) terminal
                (typed [go "rain"]) (go "AMBPork")
                [ucs.mkCategory (go "AMBIENCE") (go "PARK") (go "AMBPark") (go "AMB")
                   (go "park indoor outdoor")]) as (H & _).
    + vm_compute. reflexivity.
    + vm_compute. discriminate.
    + vm_compute. reflexivity.
    + apply H. intros c Hc. apply list_elem_of_In in Hc. simpl in Hc.
      destruct Hc as [<-|[]]. vm_compute. discriminate.
  - destruct (buildFilename_override_catID
                (session {[ go "UCS_CAT_ID" := go "AMBPark" ]} [] (go "x")) terminal
                (typed [go "rain"; go "Buddin"; go "Phonogrifter"; go "Clippy"])
                (go "AMBPark")
                [ucs.mkCategory (go "AMBIENCE") (go "PARK") (go "AMBPark") (go "AMB")
                   (go "park indoor outdoor")]) as (_ & H).
    + vm_compute. reflexivity.
    + vm_compute. discriminate.
    + vm_compute. reflexivity.
    + apply H. eexists. split; [apply list_elem_of_here | reflexivity].
Defined.

(** C2, at the input where the code leaves it: the selector ends with
    status 0 and no output, no category id is set in the environment, and
    the user answers the prompts.  [buildFilename] runs the selector, prints
    an empty CatID, prompts for the fields and returns a filename whose CatID
    is empty; it renders with a leading underscore.  The same happens when
    the selector cannot be started.  The whole program, run with [-y], then
    renames the file to that name and exits with status 0. *)
Theorem buildFilename_empty_choice :
  renamer.buildFilename (session ∅ [] []) terminal
    (typed [go "rain"; go "Buddin"; go "Phonogrifter"; []])
  = (Ok (ucs.mkFilename [] (go "rain") (go "Buddin") (go "Phonogrifter") []),
     mkState []
       [EvRun (go "/usr/bin/fzf") renamer.fzfArgs (go "FZF_DEFAULT_COMMAND=ucsrename");
        EvWrite os_Stdout (go "CatID: " ++ [NL]);
        EvWrite os_Stdout (go "FXName: "); EvWrite os_Stdout (go "CreatorID: ");
        EvWrite os_Stdout (go "SourceID: "); EvWrite os_Stdout (go "UserData: ")])
  /\ ucs.Render (ucs.mkFilename [] (go "rain") (go "Buddin") (go "Phonogrifter") []) (go ".wav")
     = go "_rain_Buddin_Phonogrifter.wav"
  /\ fst (renamer.buildFilename noSelector terminal
            (typed [go "rain"; go "Buddin"; go "Phonogrifter"; []]))
     = Ok (ucs.mkFilename [] (go "rain") (go "Buddin") (go "Phonogrifter") [])
  /\ (let '(status, st) :=
         main.main (session ∅ [go "ucsrename"; go "-y"; go "take.wav"] [])
           (typed [go "rain"; go "Buddin"; go "Phonogrifter"; []]) in
       status = 0
       /\ last (trace st) = Some (EvRename (go "take.wav") (go "_rain_Buddin_Phonogrifter.wav"))).
Proof. vm_compute. repeat split. Qed.

(** ** The confirmation *)

Section ConfirmProperties.

Import renamer.
Context (w : World) (r : Renamer).

Lemma ToLower_letter (x t : rune) :
  97 <= t <= 122 -> t ≠ 105 -> t ≠ 107 ->
  unicode.ToLower x = t <-> x = t \/ x = t - 32.
Proof.
  intros Ht Hi Hk. unfold unicode.ToLower.
  destruct (Z.leb_spec 65 x), (Z.leb_spec x 90), (Z.leb_spec 192 x),
    (Z.leb_spec x 222), (Z.eqb_spec x 215), (Z.eqb_spec x 304),
    (Z.eqb_spec x 8490); simpl; lia.
Qed.

Lemma lowered_yes (word : gostring) :
  strings.ToLower word = go "y" \/ strings.ToLower word = go "yes" <-> word ∈ yesWords.
Proof.
  change (go "y") with [121]. change (go "yes") with [121; 101; 115].
  change yesWords with
    [[121]; [89]; [121; 101; 115]; [121; 101; 83]; [121; 69; 115]; [121; 69; 83];
     [89; 101; 115]; [89; 101; 83]; [89; 69; 115]; [89; 69; 83]].
  unfold strings.ToLower. split.
  - intros [H|H].
    + destruct word as [|a [|]]; try discriminate. injection H as Ha.
      apply ToLower_letter in Ha; [|lia..].
      destruct Ha as [-> | ->]; cbn; list_mem.
    + destruct word as [|a [|b [|c [|]]]]; try discriminate. injection H as Ha Hb Hc.
      apply ToLower_letter in Ha; [|lia..].
      apply ToLower_letter in Hb; [|lia..].
      apply ToLower_letter in Hc; [|lia..].
      destruct Ha as [-> | ->], Hb as [-> | ->], Hc as [-> | ->]; cbn; list_mem.
  - rewrite !elem_of_cons, elem_of_nil.
    intros H. repeat destruct H as [->|H]; try (left; reflexivity);
      try (right; reflexivity). contradiction.
Qed.

(** [confirm] in terms of the word the scanner delivers. *)
Lemma confirm_scanned (prompt : gostring) (yes : M unit) (st : State)
    (oldName newName : gostring) :
  let word := default [] (fmt.scanWord (concat (stdin st))) in
  let asked :=
    mkState (match fmt.afterWord (concat (stdin st)) with [] => [] | rest => [rest] end)
            (trace st ++ [EvWrite os_Stdout (prompt ++ go " (y/n) ")]) in
  confirm r prompt yes st
    = (if bool_decide (word ∈ yesWords) then yes asked else (Ok tt, asked))
  /\ confirm r prompt (Rename w oldName newName) st
     = (if bool_decide (word ∈ yesWords)
        then (match os_Rename w oldName newName with Some e => Err e | None => Ok tt end,
              mkState (stdin asked)
                      (trace st ++ [EvWrite os_Stdout (prompt ++ go " (y/n) ");
                                    EvRename oldName newName]))
        else (Ok tt, asked))
  /\ Forall (fun answer => answer ∈ yesWords) [go "y"; go "Y"; go "yes"; go "YES"; go "Yes"]
  /\ Forall (fun answer => answer ∉ yesWords) noWords.
Proof.
  intros word asked.
  assert (Hgen : forall yes', confirm r prompt yes' st
            = (if bool_decide (word ∈ yesWords) then yes' asked else (Ok tt, asked))).
  { intros yes'. unfold confirm, mbind, M_bind, Fprint, Fscanf_s. cbn [stdin trace].
    fold word. fold asked.
    destruct (decide (word ∈ yesWords)) as [Hy|Hn].
    - rewrite (bool_decide_eq_true_2 _ Hy).
      apply lowered_yes in Hy as [-> | ->]; reflexivity.
    - rewrite (bool_decide_eq_false_2 _ Hn).
      assert (H1 : strings.ToLower word ≠ go "y").
      { intros H. apply Hn, lowered_yes. now left. }
      assert (H2 : strings.ToLower word ≠ go "yes").
      { intros H. apply Hn, lowered_yes. now right. }
      rewrite (bool_decide_eq_false_2 _ H1), (bool_decide_eq_false_2 _ H2).
      simpl. now destruct (_ || _). }
  split; [apply Hgen|]. split.
  - rewrite Hgen. destruct (bool_decide (word ∈ yesWords)); [|reflexivity].
    unfold Rename. subst asked. cbn [stdin trace]. rewrite <- app_assoc.
    now destruct (os_Rename w oldName newName).
  - split.
    + repeat constructor; apply lowered_yes; vm_compute; auto.
    + repeat constructor; rewrite <- lowered_yes; vm_compute; intros [H|H]; discriminate.
Qed.

(** The scanner on an input laid out as blanks, a word and what follows. *)
Lemma dropWhile_blanks (lead s : gostring) :
  blank lead -> NL ∉ lead ->
  strings.dropWhile (fun x => unicode.IsSpace x && negb (x =? NL)) (lead ++ s)
  = strings.dropWhile (fun x => unicode.IsSpace x && negb (x =? NL)) s.
Proof.
  unfold blank. induction lead as [|x lead IH]; [reflexivity|].
  cbn [forallb app strings.dropWhile].
  intros [Hx Hl]%andb_true_iff [Hnl Hno]%not_elem_of_cons.
  rewrite Hx. destruct (Z.eqb_spec x NL); [congruence|]. cbn [negb andb]. auto.
Qed.

Lemma dropWhile_word (word tail : gostring) :
  forallb (fun x => negb (unicode.IsSpace x)) word = true ->
  strings.dropWhile (fun x => negb (unicode.IsSpace x)) (word ++ tail)
  = strings.dropWhile (fun x => negb (unicode.IsSpace x)) tail.
Proof.
  induction word as [|x word IH]; [reflexivity|].
  cbn [forallb app strings.dropWhile]. intros [-> Hw]%andb_true_iff. auto.
Qed.

Lemma takeWhile_word (word tail : gostring) :
  forallb (fun x => negb (unicode.IsSpace x)) word = true ->
  strings.takeWhile (fun x => negb (unicode.IsSpace x)) (word ++ tail)
  = word ++ strings.takeWhile (fun x => negb (unicode.IsSpace x)) tail.
Proof.
  induction word as [|x word IH]; [reflexivity|].
  cbn [forallb app strings.takeWhile]. intros [-> Hw]%andb_true_iff.
  now rewrite IH.
Qed.

Lemma scan_word (lead word tail : gostring) :
  blank lead -> NL ∉ lead -> solid word ->
  tail = [] \/ (exists x t, tail = x :: t /\ unicode.IsSpace x = true) ->
  fmt.scanWord (lead ++ word ++ tail) = Some word
  /\ fmt.afterWord (lead ++ word ++ tail) = tl tail.
Proof.
  intros Hl Hnl [Hne Hw] Ht. unfold fmt.scanWord, fmt.afterWord.
  rewrite (dropWhile_blanks lead _ Hl Hnl).
  destruct word as [|x word]; [congruence|].
  pose proof Hw as Hw'. cbn [forallb] in Hw'.
  apply andb_true_iff in Hw' as [Hx _]. apply negb_true_iff in Hx.
  cbn [app strings.dropWhile]. rewrite Hx. cbn [andb].
  destruct (Z.eqb_spec x NL) as [->|_]; [discriminate|].
  change (x :: word ++ tail) with ((x :: word) ++ tail).
  rewrite (takeWhile_word _ tail Hw), (dropWhile_word _ tail Hw).
  destruct Ht as [->|(y & t & -> & Hy)].
  - split; [now rewrite app_nil_r | reflexivity].
  - cbn [strings.takeWhile strings.dropWhile]. rewrite Hy. cbn [negb].
    split; [now rewrite app_nil_r | reflexivity].
Qed.

Lemma scan_no_word (lead rest : gostring) :
  blank lead -> NL ∉ lead -> rest = [] \/ (exists t, rest = NL :: t) ->
  fmt.scanWord (lead ++ rest) = None /\ fmt.afterWord (lead ++ rest) = tl rest.
Proof.
  intros Hl Hnl Hr. unfold fmt.scanWord, fmt.afterWord.
  rewrite (dropWhile_blanks lead _ Hl Hnl).
  destruct Hr as [->|(t & ->)]; split; reflexivity.
Qed.

(** C10.  [confirm] writes the prompt once, reads one word and ends.  When
    the input at the prompt is blanks, a word and then white space or the end
    of the input, the result is that of the rename if the word is a case
    variant of [y] or [yes], and success without a rename for every other
    word, the case variants of [n] and [no] among them.  When the input holds
    no word before the line end, or nothing, it is success without a rename.
    There is no second prompt in any case. *)
Theorem confirm_answer (prompt : gostring) (yes : M unit) (st : State)
    (oldName newName : gostring) :
  (forall lead word tail,
      blank lead -> NL ∉ lead -> solid word ->
      tail = [] \/ (exists x t, tail = x :: t /\ unicode.IsSpace x = true) ->
      concat (stdin st) = lead ++ word ++ tail ->
      let asked :=
        mkState (match tl tail with [] => [] | rest => [rest] end)
                (trace st ++ [EvWrite os_Stdout (prompt ++ go " (y/n) ")]) in
      confirm r prompt yes st
        = (if bool_decide (word ∈ yesWords) then yes asked else (Ok tt, asked))
      /\ confirm r prompt (Rename w oldName newName) st
         = (if bool_decide (word ∈ yesWords)
            then (match os_Rename w oldName newName with Some e => Err e | None => Ok tt end,
                  mkState (stdin asked)
                          (trace st ++ [EvWrite os_Stdout (prompt ++ go " (y/n) ");
                                        EvRename oldName newName]))
            else (Ok tt, asked)))
  /\ (forall lead rest,
      blank lead -> NL ∉ lead -> rest = [] \/ (exists t, rest = NL :: t) ->
      concat (stdin st) = lead ++ rest ->
      confirm r prompt yes st
      = (Ok tt, mkState (match tl rest with [] => [] | unread => [unread] end)
                  (trace st ++ [EvWrite os_Stdout (prompt ++ go " (y/n) ")])))
  /\ Forall (fun answer => answer ∈ yesWords) [go "y"; go "Y"; go "yes"; go "YES"; go "Yes"]
  /\ Forall (fun answer => answer ∉ yesWords) noWords.
Proof.
  destruct (confirm_scanned prompt yes st oldName newName) as (Hyes & _ & Hy & Hn).
  destruct (confirm_scanned prompt (Rename w oldName newName) st oldName newName)
    as (_ & Hren & _ & _).
  cbv zeta in Hyes, Hren.
  split; [|split; [|split; [exact Hy | exact Hn]]].
  - intros lead word tail Hl Hnl Hw Ht Hin asked.
    destruct (scan_word lead word tail Hl Hnl Hw Ht) as [Hscan Hafter].
    rewrite Hin, Hscan, Hafter in Hyes, Hren. cbn [default] in Hyes, Hren.
    split; [exact Hyes | exact Hren].
  - intros lead rest Hl Hnl Hr Hin.
    destruct (scan_no_word lead rest Hl Hnl Hr) as [Hscan Hafter].
    rewrite Hin, Hscan, Hafter in Hyes. cbn [default] in Hyes.
    rewrite Hyes. rewrite bool_decide_eq_false_2; [reflexivity|].
    rewrite <- lowered_yes. vm_compute. intros [H|H]; discriminate.
Qed.

End ConfirmProperties.

Lemma confirm_answer_witness :
  renamer.confirm terminal (go "Rename?")
    (renamer.Rename (session ∅ [] []) (go "a.wav") (go "b.wav"))
    (typed [go "  Yes please"])
  = (Ok tt, mkState [go "please" ++ [NL]]
              [EvWrite os_Stdout (go "Rename? (y/n) "); EvRename (go "a.wav") (go "b.wav")])
  /\ renamer.confirm terminal (go "Rename?")
       (renamer.Rename (session ∅ [] []) (go "a.wav") (go "b.wav"))
       (typed [go "No"])
     = (Ok tt, mkState [] [EvWrite os_Stdout (go "Rename? (y/n) ")])
  /\ renamer.confirm terminal (go "Rename?")
       (renamer.Rename (session ∅ [] []) (go "a.wav") (go "b.wav"))
       (typed [[]; go "y"])
     = (Ok tt, mkState [go "y" ++ [NL]] [EvWrite os_Stdout (go "Rename? (y/n) ")]).
Proof.
  split; [|split].
  - destruct (confirm_answer (session ∅ [] []) terminal (go "Rename?")
                (renamer.Rename (session ∅ [] []) (go "a.wav") (go "b.wav"))
                (typed [go "  Yes please"]) (go "a.wav") (go "b.wav")) as (H & _).
    destruct (H (go "  ") (go "Yes") (go " please" ++ [NL])) as [_ Hren].
    + reflexivity.
    + vm_compute. intros Hin. apply list_elem_of_In in Hin. simpl in Hin. intuition discriminate.
    + split; [discriminate | reflexivity].
    + right. exists 32, (go "please" ++ [NL]). split; reflexivity.
    + reflexivity.
    + rewrite Hren. vm_compute. reflexivity.
  - destruct (confirm_answer (session ∅ [] []) terminal (go "Rename?")
                (renamer.Rename (session ∅ [] []) (go "a.wav") (go "b.wav"))
                (typed [go "No"]) (go "a.wav") (go "b.wav")) as (H & _).
    destruct (H [] (go "No") [NL]) as [_ Hren].
    + reflexivity.
    + apply not_elem_of_nil.
    + split; [discriminate | reflexivity].
    + right. exists NL, []. split; reflexivity.
    + reflexivity.
    + rewrite Hren. vm_compute. reflexivity.
  - destruct (confirm_answer (session ∅ [] []) terminal (go "Rename?")
                (renamer.Rename (session ∅ [] []) (go "a.wav") (go "b.wav"))
                (typed [[]; go "y"]) (go "a.wav") (go "b.wav")) as (_ & H & _).
    rewrite (H [] (NL :: go "y" ++ [NL])).
    + reflexivity.
    + reflexivity.
    + apply not_elem_of_nil.
    + right. eexists. reflexivity.
    + reflexivity.
Defined.

Example confirm_Yes_renames :
  renamer.confirm terminal (go "Rename?")
    (renamer.Rename (session ∅ [] []) (go "a.wav") (go "b.wav"))
    (typed [go "  Yes please"])
  = (Ok tt, mkState [go "please" ++ [NL]]
              [EvWrite os_Stdout (go "Rename? (y/n) "); EvRename (go "a.wav") (go "b.wav")]).
Proof. reflexivity. Qed.

Example confirm_other_answer :
  renamer.confirm terminal (go "Rename?")
    (renamer.Rename (session ∅ [] []) (go "a.wav") (go "b.wav"))
    (typed [go "sure"])
  = (Ok tt, mkState [] [EvWrite os_Stdout (go "Rename? (y/n) ")]).
Proof. reflexivity. Qed.

(** ** Exit codes *)

Section ExitCodes.






End ExitCodes.



(** When standard output is not a terminal the catalog is listed, whatever
    the command line holds, and the usage text is not written. *)
Example main_lists_catalog :
  main.main (mkWorld ∅ [go "ucsrename"] false (fun _ => Ok (go "/usr/bin/fzf"))
               (fun _ => Ok onePark) (fun _ => Ok onePark)
               (fun name => Ok (mkFileInfo name false)) (fun _ _ => None)
               (fun _ _ _ input => (None, [], input)))
    (typed [])
  = (0, mkState []
          [EvWrite os_Stdout (go "AMBPark: AMBIENCE PARK -- park indoor outdoor" ++ [NL])]).
Proof. reflexivity. Qed.

(** ** The catalog *)

Section Catalog.

Lemma readRecords_uniform (n : nat) (rows : list (list gostring)) :
  forall line, (forall r, r ∈ rows -> length r = n) ->
  csv.readRecords n line rows = Ok rows.
Proof.
  induction rows as [|r rows IH]; intros line Hall; [reflexivity|].
  assert (Hr : length r = n) by (apply Hall, list_elem_of_here).
  assert (Hrows : forall r', r' ∈ rows -> length r' = n).
  { intros r' Hin. now apply Hall, list_elem_of_further. }
  cbn [csv.readRecords]. rewrite Hr, Nat.eqb_refl. cbn [negb].
  rewrite (IH (S line) Hrows). now destruct (0 <? n)%nat.
Qed.

Lemma readRecords_ragged (n : nat) (rows : list (list gostring)) :
  forall line, n ≠ 0%nat -> (exists r, r ∈ rows /\ length r ≠ n) ->
  exists k, csv.readRecords n line rows = Err (csv_ErrFieldCount k).
Proof.
  induction rows as [|r rows IH]; intros line Hn (r' & Hin & Hlen).
  - inversion Hin.
  - cbn [csv.readRecords].
    destruct (Nat.ltb_spec 0 n) as [_|]; [|lia].
    destruct (Nat.eqb_spec (length r) n) as [E|E]; cbn [negb]; [|eauto].
    apply elem_of_cons in Hin as [->|Hin]; [contradiction|].
    destruct (IH (S line) Hn) as (k & ->); eauto.
Qed.

Lemma ReadAll_uniform (rows : list (list gostring)) :
  (forall r, r ∈ rows -> length r = length (hd [] rows)) ->
  csv.ReadAll rows = Ok rows.
Proof.
  intros Hall. unfold csv.ReadAll. destruct rows as [|r rows]; [reflexivity|].
  cbn [csv.readRecords Nat.ltb Nat.leb]. simpl hd in Hall.
  rewrite readRecords_uniform; [reflexivity|].
  intros r' Hin. now apply Hall, list_elem_of_further.
Qed.

Lemma ReadAll_ragged (rows : list (list gostring)) :
  length (hd [] rows) ≠ 0%nat ->
  (exists r, r ∈ rows /\ length r ≠ length (hd [] rows)) ->
  exists k, csv.ReadAll rows = Err (csv_ErrFieldCount k).
Proof.
  intros Hn (r' & Hin & Hlen). unfold csv.ReadAll.
  destruct rows as [|r rows]; [inversion Hin|]. simpl hd in *.
  cbn [csv.readRecords Nat.ltb Nat.leb].
  apply elem_of_cons in Hin as [->|Hin]; [contradiction|].
  destruct (readRecords_ragged (length r) rows 2 Hn) as (k & ->); eauto.
Qed.

Lemma collect_sixFieldEntries (records : list (list gostring)) :
  ucs.collect records = spec.sixFieldEntries records.
Proof.
  unfold spec.sixFieldEntries.
  induction records as [|r records IH]; [reflexivity|].
  cbn [ucs.collect List.filter]. destruct (length r =? 6)%nat; cbn [negb map]; congruence.
Qed.

Lemma insertLeft_Permutation {E : Type} (cmp : E -> E -> Z) (x : E) (placed : list E) :
  Permutation (slices.insertLeft cmp x placed) (x :: placed).
Proof.
  induction placed as [|y placed IH]; simpl; [reflexivity|].
  destruct (cmp x y <? 0); [|reflexivity].
  rewrite IH. apply perm_swap.
Qed.

Lemma SortFunc_Permutation {E : Type} (cmp : E -> E -> Z) (data : list E) :
  Permutation (slices.SortFunc cmp data) data.
Proof.
  unfold slices.SortFunc. rewrite <- Permutation_rev.
  assert (H : forall placed,
            Permutation (fold_left (fun placed x => slices.insertLeft cmp x placed) data placed)
                        (data ++ placed)).
  { induction data as [|x data IH]; intros placed; simpl; [reflexivity|].
    rewrite IH, insertLeft_Permutation. symmetry. apply Permutation_middle. }
  rewrite H. now rewrite app_nil_r.
Qed.

(** C8, as the code has it.  For a catalog file that opens: when every
    row has as many fields as the first, the load succeeds and the entries
    are those of the rows with exactly 6 fields, by column position, the
    other rows being left out; when a row has another number of fields than
    the first, the load fails with the reader's field-count error.  The file
    with the single AMBPark row gives the one entry with CatID AMBPark. *)
Theorem Categories_rows (w : World) (rows : list (list gostring)) :
  ucs.open w = Ok rows ->
  ((forall r, r ∈ rows -> length r = length (hd [] rows)) ->
   exists entries, ucs.Categories w = Ok entries
                   /\ Permutation entries (spec.sixFieldEntries rows))
  /\ (length (hd [] rows) ≠ 0%nat ->
      (exists r, r ∈ rows /\ length r ≠ length (hd [] rows)) ->
      exists record, ucs.Categories w = Err (csv_ErrFieldCount record))
  /\ (rows = onePark ->
      ucs.Categories w
      = Ok [ucs.mkCategory (go "AMBIENCE") (go "PARK") (go "AMBPark") (go "AMB")
              (go "park indoor outdoor")]).
Proof.
  intros Hopen. unfold ucs.Categories. rewrite Hopen. repeat split.
  - intros Hall. rewrite (ReadAll_uniform rows Hall). eexists. split; [reflexivity|].
    rewrite SortFunc_Permutation. now rewrite collect_sixFieldEntries.
  - intros Hn Hsome. destruct (ReadAll_ragged rows Hn Hsome) as (k & ->). eauto.
  - intros ->. reflexivity.
Qed.

End Catalog.

Lemma Categories_rows_witness :
  ucs.Categories (withCatalog onePark)
  = Ok [ucs.mkCategory (go "AMBIENCE") (go "PARK") (go "AMBPark") (go "AMB")
          (go "park indoor outdoor")]
  /\ (exists record, ucs.Categories (withCatalog raggedRows) = Err (csv_ErrFieldCount record))
  /\ (exists entries, ucs.Categories (withCatalog [[go "a"; go "b"]; [go "c"; go "d"]]) = Ok entries
                      /\ Permutation entries []).
Proof.
  split; [|split].
  - destruct (Categories_rows (withCatalog onePark) onePark eq_refl) as (_ & _ & H).
    apply H. reflexivity.
  - destruct (Categories_rows (withCatalog raggedRows) raggedRows eq_refl) as (_ & H & _).
    apply H.
    + vm_compute. discriminate.
    + exists (strings.Split (go "AIR,BLOW,AIRBlow,AIR,wind") (go ",")). split.
      * unfold raggedRows. list_mem.
      * vm_compute. discriminate.
  - destruct (Categories_rows (withCatalog [[go "a"; go "b"]; [go "c"; go "d"]])
                [[go "a"; go "b"]; [go "c"; go "d"]] eq_refl) as (H & _).
    apply H. intros r Hr. apply list_elem_of_In in Hr. simpl in Hr.
    destruct Hr as [<-|[<-|[]]]; reflexivity.
Defined.

(** C8, where the sentence of the specification fails: a file whose first
    row has 6 fields and whose second row has 5.  The load fails with the
    field-count error at the second record; the second row is not skipped
    and no entry is returned. *)
Lemma Categories_ragged_fails :
  ucs.open (withCatalog raggedRows) = Ok raggedRows
  /\ map (fun r => length r) raggedRows = [6; 5]%nat
  /\ ucs.Categories (withCatalog raggedRows) = Err (csv_ErrFieldCount 2)
  /\ ~ (exists entries, ucs.Categories (withCatalog raggedRows) = Ok entries).
Proof.
  repeat split; try reflexivity.
  intros (entries & H). vm_compute in H. discriminate.
Qed.

(** * Further properties of the code *)

(** ** The catalog is sorted, and what [validateCatID] accepts *)

Section CatalogOrder.

Lemma stringLess_asym (a b : gostring) :
  ucs.stringLess a b = true -> ucs.stringLess b a = false.
Proof.
  revert b. induction a as [|x a IH]; intros [|y b]; simpl; try reflexivity;
    try discriminate.
  intros H. apply orb_true_iff in H as [H|H].
  - apply Z.ltb_lt in H.
    destruct (Z.ltb_spec y x); [lia|]. destruct (Z.eqb_spec y x); [lia | reflexivity].
  - apply andb_true_iff in H as [Hxy H]. apply Z.eqb_eq in Hxy as ->.
    rewrite Z.ltb_irrefl, Z.eqb_refl. simpl. now apply IH.
Qed.

Lemma byCatID_asym (a b : ucs.Category) :
  ucs.byCatID a b < 0 -> ~ ucs.byCatID b a < 0.
Proof.
  unfold ucs.byCatID.
  destruct (ucs.stringLess (ucs.c_CatID a) (ucs.c_CatID b)) eqn:E; [|lia].
  rewrite (stringLess_asym _ _ E). lia.
Qed.

Context {E : Type} (cmp : E -> E -> Z).
Hypothesis cmp_asym : forall a b, cmp a b < 0 -> ~ cmp b a < 0.

(** The placed part, nearest element first, never rises. *)
Fixpoint descends (placed : list E) : Prop :=
  match placed with
  | y :: tl => match tl with
               | z :: _ => ~ cmp y z < 0 /\ descends tl
               | [] => True
               end
  | [] => True
  end.

Lemma insertLeft_head (x : E) (placed : list E) :
  exists tl, slices.insertLeft cmp x placed = x :: tl
             \/ (exists y placed', placed = y :: placed' /\ cmp x y < 0
                                   /\ slices.insertLeft cmp x placed = y :: tl).
Proof.
  destruct placed as [|y placed]; simpl; [eauto|].
  destruct (Z.ltb_spec (cmp x y) 0); eauto 10.
Qed.

Lemma insertLeft_descends (x : E) (placed : list E) :
  descends placed -> descends (slices.insertLeft cmp x placed).
Proof.
  induction placed as [|y placed IH]; intros Hd; [exact I|].
  cbn [slices.insertLeft]. destruct (Z.ltb_spec (cmp x y) 0) as [Hlt|Hge].
  - assert (Htl : descends placed) by (destruct placed; [exact I | apply Hd]).
    specialize (IH Htl).
    destruct (insertLeft_head x placed) as (tl & [Heq|(z & placed' & -> & Hxz & Heq)]);
      rewrite Heq in *; cbn [descends].
    + split; [now apply cmp_asym | exact IH].
    + split; [apply Hd | exact IH].
  - cbn [descends]. split; [lia | exact Hd].
Qed.

Lemma IsSortedFunc_snoc (l : list E) (z y : E) :
  slices.IsSortedFunc cmp (l ++ [z; y]) = true
  <-> slices.IsSortedFunc cmp (l ++ [z]) = true /\ ~ cmp y z < 0.
Proof.
  induction l as [|a l IH].
  - simpl. rewrite andb_true_r, negb_true_iff, Z.ltb_ge. intuition lia.
  - destruct l as [|b l].
    + simpl. rewrite !andb_true_r, andb_true_iff, !negb_true_iff, !Z.ltb_ge.
      intuition lia.
    + change ((a :: b :: l) ++ [z; y]) with (a :: (b :: l) ++ [z; y]).
      change ((a :: b :: l) ++ [z]) with (a :: (b :: l) ++ [z]).
      cbn [slices.IsSortedFunc app]. cbn [app] in IH.
      rewrite !andb_true_iff, IH. tauto.
Qed.

Lemma descends_rev_sorted (placed : list E) :
  descends placed -> slices.IsSortedFunc cmp (rev placed) = true.
Proof.
  induction placed as [|y placed IH]; intros Hd; [reflexivity|].
  destruct placed as [|z placed]; [reflexivity|].
  destruct Hd as [Hyz Hd]. specialize (IH Hd).
  change (rev (y :: z :: placed)) with ((rev placed ++ [z]) ++ [y]).
  rewrite <- app_assoc. apply IsSortedFunc_snoc. split; [exact IH | exact Hyz].
Qed.

Lemma SortFunc_sorted (data : list E) :
  slices.IsSortedFunc cmp (slices.SortFunc cmp data) = true.
Proof.
  unfold slices.SortFunc. apply descends_rev_sorted.
  assert (H : forall placed, descends placed ->
            descends (fold_left (fun placed x => slices.insertLeft cmp x placed) data placed)).
  { induction data as [|x data IH]; intros placed Hd; [exact Hd|].
    simpl. apply IH. now apply insertLeft_descends. }
  now apply H.
Qed.

End CatalogOrder.

Section CatalogLookup.

Lemma readRecords_Ok (rows : list (list gostring)) :
  forall n line records, csv.readRecords n line rows = Ok records -> records = rows.
Proof.
  induction rows as [|r rows IH]; intros n line records; cbn [csv.readRecords].
  - now intros [= <-].
  - destruct (0 <? n)%nat.
    + destruct (negb _); [discriminate|].
      destruct (csv.readRecords n (S line) rows) eqn:E; [|discriminate].
      intros [= <-]. f_equal. eauto.
    + destruct (csv.readRecords (length r) (S line) rows) eqn:E; [|discriminate].
      intros [= <-]. f_equal. eauto.
Qed.

Lemma Categories_Ok (w : World) (entries : list ucs.Category) :
  ucs.Categories w = Ok entries ->
  exists rows, ucs.open w = Ok rows /\ csv.ReadAll rows = Ok rows
               /\ entries = slices.SortFunc ucs.byCatID (ucs.collect rows).
Proof.
  unfold ucs.Categories.
  destruct (ucs.open w) as [rows|e]; [|discriminate].
  destruct (csv.ReadAll rows) as [records|e] eqn:E; [|discriminate].
  intros [= <-]. pose proof (readRecords_Ok _ _ _ _ E) as ->.
  exists rows. repeat split. exact E.
Qed.

(** X1.  Whenever the catalog loads, the entries come back in ascending
    order of CatID, as [slices.IsSortedFunc] with the package's comparison
    checks it, and they are the entries of the file's six-field rows. *)
Theorem Categories_sorted (w : World) (entries : list ucs.Category) :
  ucs.Categories w = Ok entries ->
  slices.IsSortedFunc ucs.byCatID entries = true
  /\ exists rows, ucs.open w = Ok rows
                  /\ Permutation entries (spec.sixFieldEntries rows).
Proof.
  intros H. apply Categories_Ok in H as (rows & Hopen & _ & ->). split.
  - apply SortFunc_sorted. exact byCatID_asym.
  - exists rows. split; [exact Hopen|].
    rewrite SortFunc_Permutation. now rewrite collect_sixFieldEntries.
Qed.

Lemma sixFieldEntries_CatID (rows : list (list gostring)) (catID : gostring) :
  (exists c, c ∈ spec.sixFieldEntries rows /\ ucs.c_CatID c = catID)
  <-> exists r, r ∈ rows /\ length r = 6%nat /\ nth 2 r [] = catID.
Proof.
  unfold spec.sixFieldEntries. split.
  - intros (c & Hin & Hc). apply list_elem_of_In, in_map_iff in Hin as (r & <- & Hr).
    apply filter_In in Hr as [Hr Hlen]. exists r.
    split; [now apply list_elem_of_In|]. split; [now apply Nat.eqb_eq | exact Hc].
  - intros (r & Hin & Hlen & Hc).
    exists (ucs.mkCategory (nth 0 r []) (nth 1 r []) (nth 2 r []) (nth 3 r []) (nth 5 r [])).
    split; [|exact Hc].
    apply list_elem_of_In.
    apply (in_map (fun r => ucs.mkCategory (nth 0 r []) (nth 1 r []) (nth 2 r [])
                                          (nth 3 r []) (nth 5 r []))).
    apply filter_In.
    split; [now apply list_elem_of_In | now apply Nat.eqb_eq].
Qed.

(** X2.  For a catalog file that the reader accepts, [validateCatID] returns
    no error exactly for the ids that stand in the third column of a row with
    six fields, and the error "unknown CatID" for every other id. *)
Theorem validateCatID_accepts (w : World) (rows : list (list gostring))
    (catID : gostring) :
  ucs.open w = Ok rows ->
  (forall r, r ∈ rows -> length r = length (hd [] rows)) ->
  (renamer.validateCatID w catID = None
   <-> exists r, r ∈ rows /\ length r = 6%nat /\ nth 2 r [] = catID)
  /\ (renamer.validateCatID w catID = None
      \/ renamer.validateCatID w catID = Some (errorString (go "unknown CatID: " ++ catID))).
Proof.
  intros Hopen Hall.
  assert (Hcat : ucs.Categories w = Ok (slices.SortFunc ucs.byCatID (ucs.collect rows))).
  { unfold ucs.Categories. now rewrite Hopen, (ReadAll_uniform rows Hall). }
  unfold renamer.validateCatID. rewrite Hcat.
  destruct (slices.ContainsFunc _ _) eqn:E; cbn [negb].
  - split; [|now left]. split; [intros _|reflexivity].
    apply ContainsFunc_CatID in E as (c & Hin & Hc).
    apply sixFieldEntries_CatID. exists c. split; [|exact Hc].
    rewrite <- collect_sixFieldEntries.
    now rewrite <- (SortFunc_Permutation ucs.byCatID).
  - split; [|now right]. split; [discriminate|].
    intros Hr. apply sixFieldEntries_CatID in Hr as (c & Hin & Hc).
    assert (slices.ContainsFunc (slices.SortFunc ucs.byCatID (ucs.collect rows))
              (fun c => bool_decide (ucs.c_CatID c = catID)) = true); [|congruence].
    apply ContainsFunc_CatID. exists c. split; [|exact Hc].
    rewrite (SortFunc_Permutation ucs.byCatID). now rewrite collect_sixFieldEntries.
Qed.

End CatalogLookup.

Definition threeRows : list (list gostring) :=
  [strings.Split (go "WATER,SURF,WATRSurf,WATR,,waves") (go ",");
   strings.Split (go "AMBIENCE,PARK,AMBPark,AMB,,park indoor outdoor") (go ",");
   strings.Split (go "AIR,BLOW,AIRBlow,AIR,,wind") (go ",")].

Lemma Categories_sorted_witness :
  exists entries, ucs.Categories (withCatalog threeRows) = Ok entries
    /\ map ucs.c_CatID entries = [go "AIRBlow"; go "AMBPark"; go "WATRSurf"]
    /\ slices.IsSortedFunc ucs.byCatID entries = true.
Proof.
  eexists. split; [reflexivity|]. split; [reflexivity|].
  apply (Categories_sorted (withCatalog threeRows)). reflexivity.
Defined.

Lemma validateCatID_accepts_witness :
  renamer.validateCatID (withCatalog threeRows) (go "AMBPark") = None
  /\ (renamer.validateCatID (withCatalog threeRows) (go "AMBIENCE") = None
      \/ renamer.validateCatID (withCatalog threeRows) (go "AMBIENCE")
         = Some (errorString (go "unknown CatID: " ++ go "AMBIENCE"))).
Proof.
  assert (Huni : forall r, r ∈ threeRows -> length r = length (hd [] threeRows)).
  { intros r Hr. apply list_elem_of_In in Hr. simpl in Hr.
    destruct Hr as [<-|[<-|[<-|[]]]]; reflexivity. }
  split.
  - apply (validateCatID_accepts (withCatalog threeRows) threeRows (go "AMBPark") eq_refl Huni).
    exists (strings.Split (go "AMBIENCE,PARK,AMBPark,AMB,,park indoor outdoor") (go ",")).
    split; [unfold threeRows; list_mem|]. split; reflexivity.
  - apply (validateCatID_accepts (withCatalog threeRows) threeRows (go "AMBIENCE") eq_refl Huni).
Defined.

(** ** The rounds of the prompt loop *)

Section PromptRounds.

Context (w : World) (r : renamer.Renamer).

Lemma upTo_None (delim : rune) (chunk : gostring) :
  delim ∉ chunk -> bufio.upTo delim chunk = None.
Proof.
  induction chunk as [|x chunk IH]; [reflexivity|].
  intros [Hx Hc]%not_elem_of_cons. simpl.
  destruct (Z.eqb_spec x delim); [congruence|]. now rewrite IH.
Qed.

Lemma upTo_first (delim : rune) (line more : gostring) :
  delim ∉ line -> bufio.upTo delim (line ++ delim :: more) = Some (line ++ [delim]).
Proof.
  induction line as [|x line IH]; intros Hl; simpl.
  - now rewrite Z.eqb_refl.
  - apply not_elem_of_cons in Hl as [Hx Hl].
    destruct (Z.eqb_spec x delim); [congruence|]. now rewrite IH.
Qed.

Lemma ReadString_chunk (line more : gostring) (rest : Stdin) :
  NL ∉ line ->
  bufio.ReadString ((line ++ NL :: more) :: rest) NL [] = (Ok (line ++ [NL]), rest).
Proof. intros Hl. simpl. now rewrite upTo_first. Qed.

Lemma ReadString_no_delim (input : Stdin) (delim : rune) :
  (forall chunk, chunk ∈ input -> delim ∉ chunk) ->
  forall acc, bufio.ReadString input delim acc = (Err io_EOF, []).
Proof.
  induction input as [|c input IH]; intros Hall acc; [reflexivity|].
  simpl. rewrite upTo_None by (apply Hall, list_elem_of_here).
  apply IH. intros chunk Hin. now apply Hall, list_elem_of_further.
Qed.

Lemma normalize_nonempty (text : gostring) :
  strings.TrimSpace text ≠ [] -> spec.normalize text ≠ [].
Proof.
  unfold spec.normalize. pose proof (TrimSpace_startsClean text) as Hs.
  destruct (strings.TrimSpace text) as [|x s]; [congruence|].
  simpl in Hs. simpl. now rewrite Hs.
Qed.

Lemma promptLoop_required_nonempty (fieldName : gostring) (st : State) :
  forall v st', renamer.promptLoop r fieldName renamer.required st = (Ok v, st') -> v ≠ [].
Proof.
  induction st as [st IH] using promptLoop_rounds. intros v st'.
  rewrite promptLoop_unfold.
  destruct (bufio.ReadString (stdin st) NL []) as [[text|e0] rest] eqn:Hread;
    [|discriminate].
  pose proof (ReadString_shorter _ _ _ _ _ Hread) as Hlt. cbv zeta. cbn [renamer.isRequired andb].
  destruct (decide (strings.TrimSpace text = [])) as [E|E].
  - rewrite (bool_decide_eq_true_2 _ E). now apply IH.
  - rewrite (bool_decide_eq_false_2 _ E).
    destruct (strings.Contains (strings.TrimSpace text) [underscore]); [now apply IH|].
    intros [= <- _]. rewrite Join_Fields_normalize. now apply normalize_nonempty.
Qed.

Lemma required_value_nonempty (fieldName envOverrideVar : gostring)
    (st : State) (v : gostring) (st' : State) :
  renamer.promptField w r fieldName renamer.required envOverrideVar st = (Ok v, st') ->
  v ≠ [].
Proof.
  unfold renamer.promptField.
  destruct (bool_decide (envOverrideVar ≠ []) && bool_decide (Getenv w envOverrideVar ≠ []))
    eqn:E; [|apply promptLoop_required_nonempty].
  apply andb_true_iff in E as [_ E]. apply bool_decide_eq_true_1 in E.
  now intros [= <- _].
Qed.

(** X3.  A prompt for a required field never returns the empty value,
    whether the value was typed or comes from the environment. *)
Theorem promptField_required_nonempty (fieldName envOverrideVar : gostring)
    (st : State) (v : gostring) (st' : State) :
  renamer.promptField w r fieldName renamer.required envOverrideVar st = (Ok v, st') -> v ≠ [].
Proof.
  unfold renamer.promptField.
  destruct (bool_decide (envOverrideVar ≠ [])); cbn [andb];
    [|apply promptLoop_required_nonempty].
  destruct (decide (Getenv w envOverrideVar ≠ [])) as [E|E].
  - rewrite (bool_decide_eq_true_2 _ E). now intros [= <- _].
  - rewrite (bool_decide_eq_false_2 _ E). apply promptLoop_required_nonempty.
Qed.

(** X4.  [promptFields] ends in one of two ways: with a filename whose
    CatID is the one given and whose FXName, CreatorID and SourceID are not
    empty, or with the error of one of its four prompts, in the state that
    prompt left.  Its own errors "FXName is required", "CreatorID is
    required" and "SourceID is required" are never the result: the checks
    that would return them never fire. *)
Theorem promptFields_outcome (catID : gostring) (st : State)
    (res : result ucs.Filename) (st' : State) :
  renamer.promptFields w r catID st = (res, st') ->
  (exists f, res = Ok f /\ ucs.CatID f = catID /\ ucs.FXName f ≠ []
             /\ ucs.CreatorID f ≠ [] /\ ucs.SourceID f ≠ [])
  \/ (exists e fieldName req envOverrideVar s,
        res = Err e
        /\ (fieldName, req, envOverrideVar)
           ∈ [(go "FXName", renamer.required, []);
              (go "CreatorID", renamer.required, go "UCS_CREATOR_ID");
              (go "SourceID", renamer.required, go "UCS_SOURCE_ID");
              (go "UserData", renamer.optional, go "UCS_USER_DATA")]
        /\ renamer.promptField w r fieldName req envOverrideVar s = (Err e, st')).
Proof.
  unfold renamer.promptFields, mbind, M_bind, Fprint at 1, fail, mret, M_ret.
  destruct (renamer.promptField w r (go "FXName") _ _ _) as [[fx|e] s1] eqn:H1.
  2: { intros [= <- <-]. right. do 5 eexists. split; [reflexivity|].
       split; [|exact H1]. list_mem. }
  apply required_value_nonempty in H1 as N1.
  rewrite (bool_decide_eq_false_2 _ N1).
  destruct (renamer.promptField w r (go "CreatorID") _ _ _) as [[cr|e] s2] eqn:H2.
  2: { intros [= <- <-]. right. do 5 eexists. split; [reflexivity|].
       split; [|exact H2]. list_mem. }
  apply required_value_nonempty in H2 as N2.
  rewrite (bool_decide_eq_false_2 _ N2).
  destruct (renamer.promptField w r (go "SourceID") _ _ _) as [[src|e] s3] eqn:H3.
  2: { intros [= <- <-]. right. do 5 eexists. split; [reflexivity|].
       split; [|exact H3]. list_mem. }
  apply required_value_nonempty in H3 as N3.
  rewrite (bool_decide_eq_false_2 _ N3).
  destruct (renamer.promptField w r (go "UserData") _ _ _) as [[ud|e] s4] eqn:H4.
  2: { intros [= <- <-]. right. do 5 eexists. split; [reflexivity|].
       split; [|exact H4]. list_mem. }
  intros [= <- <-]. left. eexists. repeat split; assumption.
Qed.

(** X5.  When the field is prompted for and the input ends without
    another line end, the prompt is written once and the prompt fails with
    [io.EOF]: the text typed without a line end is not taken as a value, and
    nothing is left of the input. *)
Theorem promptField_input_exhausted (fieldName : gostring) (req : renamer.requirement)
    (envOverrideVar : gostring) (st : State) :
  envOverrideVar = [] \/ Getenv w envOverrideVar = [] ->
  (forall chunk, chunk ∈ stdin st -> NL ∉ chunk) ->
  renamer.promptField w r fieldName req envOverrideVar st
  = (Err io_EOF, mkState [] (trace st ++ [promptEvent r fieldName])).
Proof.
  intros Hint Hno.
  rewrite promptField_interactive by exact Hint.
  rewrite promptLoop_unfold, (ReadString_no_delim _ _ Hno). reflexivity.
Qed.

Lemma promptLoop_round_reject (fieldName : gostring) (req : renamer.requirement)
    (line more : gostring) (rest : Stdin) (tr : list Event) :
  NL ∉ line -> rejects req (line ++ [NL]) = true ->
  renamer.promptLoop r fieldName req (mkState ((line ++ NL :: more) :: rest) tr)
  = renamer.promptLoop r fieldName req
      (mkState rest (tr ++ [promptEvent r fieldName; rejection r fieldName req (line ++ [NL])])).
Proof.
  intros Hl Hrej. rewrite promptLoop_unfold. cbn [stdin trace].
  rewrite (ReadString_chunk _ _ _ Hl). cbv zeta.
  unfold rejects in Hrej. unfold rejection, promptEvent.
  destruct (renamer.isRequired req && bool_decide (strings.TrimSpace (line ++ [NL]) = []));
    [now rewrite <- app_assoc|].
  cbn [orb] in Hrej. rewrite Hrej. now rewrite <- app_assoc.
Qed.

Lemma promptLoop_round_accept (fieldName : gostring) (req : renamer.requirement)
    (line more : gostring) (rest : Stdin) (tr : list Event) :
  NL ∉ line -> rejects req (line ++ [NL]) = false ->
  renamer.promptLoop r fieldName req (mkState ((line ++ NL :: more) :: rest) tr)
  = (Ok (spec.normalize (line ++ [NL])), mkState rest (tr ++ [promptEvent r fieldName])).
Proof.
  intros Hl Hrej. rewrite promptLoop_unfold. cbn [stdin trace].
  rewrite (ReadString_chunk _ _ _ Hl). cbv zeta.
  unfold rejects in Hrej. apply orb_false_iff in Hrej as [-> ->].
  now rewrite Join_Fields_normalize.
Qed.

(** X6.  The loop on input that arrives in chunks, each starting with a
    line: as long as the first line of a chunk is rejected (empty for a
    required field, or holding an underscore) the round writes the prompt and
    the error line for that line and drops the chunk; the first chunk whose
    first line passes ends the loop with the normal form of that line.  One
    chunk is used up per round, and the input after the accepted chunk is
    left as it is.  If the input ends after the rejected chunks, the loop
    writes one more prompt and fails with [io.EOF]. *)
Theorem promptLoop_chunks (fieldName : gostring) (req : renamer.requirement)
    (bad : list (gostring * gostring)) (tr : list Event) :
  Forall (fun lm => (NL ∉ fst lm) /\ rejects req (fst lm ++ [NL]) = true) bad ->
  (forall good more rest,
      NL ∉ good -> rejects req (good ++ [NL]) = false ->
      renamer.promptLoop r fieldName req
        (mkState (map (fun lm => fst lm ++ NL :: snd lm) bad ++ (good ++ NL :: more) :: rest) tr)
      = (Ok (spec.normalize (good ++ [NL])),
         mkState rest
           (tr ++ concat (map (fun lm => [promptEvent r fieldName;
                                          rejection r fieldName req (fst lm ++ [NL])]) bad)
               ++ [promptEvent r fieldName])))
  /\ renamer.promptLoop r fieldName req
       (mkState (map (fun lm => fst lm ++ NL :: snd lm) bad) tr)
     = (Err io_EOF,
        mkState []
          (tr ++ concat (map (fun lm => [promptEvent r fieldName;
                                         rejection r fieldName req (fst lm ++ [NL])]) bad)
              ++ [promptEvent r fieldName])).
Proof.
  revert tr. induction bad as [|[line more'] bad IH]; intros tr Hbad.
  - split.
    + intros good more rest Hg Hacc. cbn [map app concat].
      now apply promptLoop_round_accept.
    + rewrite promptLoop_unfold. reflexivity.
  - apply Forall_cons in Hbad as [[Hl Hrej] Hbad]. cbn [fst snd] in Hl, Hrej.
    destruct (IH (tr ++ [promptEvent r fieldName; rejection r fieldName req (line ++ [NL])])
                 Hbad) as [IHok IHeof].
    cbn [map app concat fst snd]. split.
    + intros good more rest Hg Hacc.
      rewrite (promptLoop_round_reject _ _ _ _ _ _ Hl Hrej).
      rewrite (IHok good more rest Hg Hacc). now rewrite <- !app_assoc.
    + rewrite (promptLoop_round_reject _ _ _ _ _ _ Hl Hrej).
      rewrite IHeof. now rewrite <- !app_assoc.
Qed.

End PromptRounds.

Lemma promptField_required_nonempty_witness : go "rain" ≠ [].
Proof.
  eapply (promptField_required_nonempty (session ∅ [] []) terminal (go "FXName") []
            (typed [[]; go "rain"]) (go "rain")).
  vm_compute. reflexivity.
Defined.

(** The state in which a session stops when the input ends at the second
    prompt, after two empty lines. *)
Definition stalled : State :=
  mkState [] [EvWrite os_Stdout (go "CatID: AMBPark" ++ [NL]);
              EvWrite os_Stdout (go "FXName: ");
              EvWrite os_Stdout (go "CreatorID: ");
              EvWrite os_Stderr (go "Invalid: CreatorID is required" ++ [NL]);
              EvWrite os_Stdout (go "CreatorID: ");
              EvWrite os_Stderr (go "Invalid: CreatorID is required" ++ [NL]);
              EvWrite os_Stdout (go "CreatorID: ")].

Lemma promptFields_outcome_witness :
  (exists f, fst (renamer.promptFields (session ∅ [] []) terminal (go "AMBPark")
                    (typed [go "rain"; go "Buddin"; go "Phonogrifter"; go "Clippy"])) = Ok f
             /\ ucs.CatID f = go "AMBPark" /\ ucs.FXName f ≠ []
             /\ ucs.CreatorID f ≠ [] /\ ucs.SourceID f ≠ [])
  /\ (exists e fieldName req envOverrideVar s,
        renamer.promptFields (session ∅ [] []) terminal (go "AMBPark")
          (typed [go "rain"; []; []])
        = (Err e, stalled)
        /\ (fieldName, req, envOverrideVar)
           ∈ [(go "FXName", renamer.required, []);
              (go "CreatorID", renamer.required, go "UCS_CREATOR_ID");
              (go "SourceID", renamer.required, go "UCS_SOURCE_ID");
              (go "UserData", renamer.optional, go "UCS_USER_DATA")]
        /\ renamer.promptField (session ∅ [] []) terminal fieldName req envOverrideVar s
           = (Err e, stalled)).
Proof.
  split.
  - destruct (renamer.promptFields (session ∅ [] []) terminal (go "AMBPark")
                (typed [go "rain"; go "Buddin"; go "Phonogrifter"; go "Clippy"]))
      as [res st'] eqn:H.
    destruct (promptFields_outcome _ _ _ _ _ _ H)
      as [(f & -> & Hf)|(e & fieldName & req & var & s & -> & _)].
    + exists f. split; [reflexivity | exact Hf].
    + vm_compute in H. discriminate.
  - destruct (renamer.promptFields (session ∅ [] []) terminal (go "AMBPark")
                (typed [go "rain"; []; []])) as [res st'] eqn:H.
    destruct (promptFields_outcome _ _ _ _ _ _ H)
      as [(f & -> & _)|(e & fieldName & req & var & s & -> & Hin & Hp)].
    + vm_compute in H. discriminate.
    + assert (st' = stalled) as <-
        by (vm_compute in H; now inversion H).
      exists e, fieldName, req, var, s. split; [reflexivity|]. split; assumption.
Defined.

Lemma promptField_input_exhausted_witness :
  renamer.promptField (session ∅ [] []) terminal (go "FXName") renamer.required []
    (mkState [go "rain"; go " heavy"] [])
  = (Err io_EOF, mkState [] [EvWrite os_Stdout (go "FXName: ")]).
Proof.
  apply (promptField_input_exhausted (session ∅ [] []) terminal (go "FXName")
           renamer.required [] (mkState [go "rain"; go " heavy"] [])).
  - left. reflexivity.
  - intros chunk Hc. apply list_elem_of_In in Hc. simpl in Hc.
    destruct Hc as [<-|[<-|[]]]; vm_compute; intros H; apply list_elem_of_In in H;
      simpl in H; intuition discriminate.
Defined.

Lemma promptLoop_chunks_witness :
  renamer.promptLoop terminal (go "FXName") renamer.required
    (mkState [[NL] ++ go "lost"; go "a_b" ++ [NL]; go "rain  heavy" ++ [NL] ++ go "lost too";
              go "next" ++ [NL]] [])
  = (Ok (go "rain-heavy"),
     mkState [go "next" ++ [NL]]
       [EvWrite os_Stdout (go "FXName: ");
        EvWrite os_Stderr (go "Invalid: FXName is required" ++ [NL]);
        EvWrite os_Stdout (go "FXName: ");
        EvWrite os_Stderr (renamer.delimiterMessage ++ [NL]);
        EvWrite os_Stdout (go "FXName: ")]).
Proof.
  destruct (promptLoop_chunks terminal (go "FXName") renamer.required
              [([], go "lost"); (go "a_b", [])] []) as [H _].
  - repeat constructor; vm_compute; try reflexivity;
      intros H; apply list_elem_of_In in H; simpl in H; intuition discriminate.
  - refine (eq_trans _ (eq_trans (H (go "rain  heavy") (go "lost too") [go "next" ++ [NL]] _ _) _)).
    + reflexivity.
    + vm_compute. intros H'. apply list_elem_of_In in H'. simpl in H'. intuition discriminate.
    + vm_compute. reflexivity.
    + vm_compute. reflexivity.
Defined.

(** ** Values that were accepted, entered again; input that comes in one piece *)

Section Reentry.

Context (w : World) (r : renamer.Renamer).

Lemma collapseRuns_nospace (b : bool) (v : gostring) :
  (forall x, x ∈ v -> unicode.IsSpace x = false) -> spec.collapseRuns b v = v.
Proof.
  revert b. induction v as [|x v IH]; intros b Hv; [reflexivity|].
  simpl. rewrite (Hv x) by apply list_elem_of_here. f_equal.
  apply IH. intros y Hy. now apply Hv, list_elem_of_further.
Qed.

Lemma nospace_solid (v : gostring) :
  v ≠ [] -> (forall x, x ∈ v -> unicode.IsSpace x = false) -> solid v.
Proof.
  intros Hne Hv. split; [exact Hne|].
  apply forallb_forall. intros x Hx. apply negb_true_iff, Hv. now apply list_elem_of_In.
Qed.

Lemma TrimSpace_line (v : gostring) :
  (forall x, x ∈ v -> unicode.IsSpace x = false) -> strings.TrimSpace (v ++ [NL]) = v.
Proof.
  intros Hv. destruct v as [|x v]; [reflexivity|].
  assert (Hs : solid (x :: v)) by (apply nospace_solid; [discriminate | exact Hv]).
  change ((x :: v) ++ [NL]) with ([] ++ (x :: v) ++ [NL]).
  apply TrimSpace_strip; try reflexivity; try discriminate.
  - simpl. apply Hv, list_elem_of_here.
  - now apply solid_endsClean.
Qed.

Lemma accepted_nospace (fieldName : gostring) (req : renamer.requirement) (st : State)
    (v : gostring) (st' : State) :
  renamer.promptLoop r fieldName req st = (Ok v, st') ->
  (forall x, x ∈ v -> unicode.IsSpace x = false) /\ (underscore ∉ v)
  /\ (req = renamer.required -> v ≠ []).
Proof.
  intros H. pose proof H as H'.
  apply promptLoop_accepted in H as (text & -> & Hc). repeat split.
  - intros x. apply collapseRuns_no_space.
  - now apply normalize_delimiterFree.
  - intros ->. now apply promptLoop_required_nonempty in H'.
Qed.

(** X7.  A value the prompt has returned for a typed line is accepted
    unchanged when it is typed again: the prompt, given that value as the
    next line, returns it after one round, without an error line. *)
Theorem promptField_reenter (fieldName : gostring) (req : renamer.requirement)
    (envOverrideVar : gostring) (st : State) (v : gostring) (st' : State)
    (more : gostring) (rest : Stdin) (tr : list Event) :
  envOverrideVar = [] \/ Getenv w envOverrideVar = [] ->
  renamer.promptField w r fieldName req envOverrideVar st = (Ok v, st') ->
  renamer.promptField w r fieldName req envOverrideVar (mkState ((v ++ NL :: more) :: rest) tr)
  = (Ok v, mkState rest (tr ++ [promptEvent r fieldName])).
Proof.
  intros Hint H. rewrite promptField_interactive in * by exact Hint.
  apply accepted_nospace in H as (Hv & Hu & Hreq).
  assert (Hnl : NL ∉ v).
  { intros Hin. apply Hv in Hin. discriminate. }
  assert (Hrej : rejects req (v ++ [NL]) = false).
  { unfold rejects. rewrite (TrimSpace_line v Hv).
    apply orb_false_iff. split; [|now apply Contains_single_false].
    destruct req; [|reflexivity]. cbn [renamer.isRequired andb].
    now apply bool_decide_eq_false_2, Hreq. }
  rewrite (promptLoop_round_accept r fieldName req v more rest tr Hnl Hrej).
  unfold spec.normalize. rewrite (TrimSpace_line v Hv).
  now rewrite (collapseRuns_nospace false v Hv).
Qed.

(** X8.  When all the answers arrive in one chunk, as from a pipe, the
    first prompt takes the first line and the rest of the chunk goes with its
    reader: the next field that has to be prompted for, CreatorID when it has
    no override, finds the input at its end and [promptFields] fails with
    [io.EOF]. *)
Theorem promptFields_one_chunk (catID line more : gostring) (tr : list Event) :
  Getenv w (go "UCS_CREATOR_ID") = [] ->
  NL ∉ line -> rejects renamer.required (line ++ [NL]) = false ->
  renamer.promptFields w r catID (mkState [line ++ NL :: more] tr)
  = (Err io_EOF,
     mkState [] (tr ++ [EvWrite (renamer.Stdout r) (go "CatID: " ++ catID ++ [NL]);
                        promptEvent r (go "FXName"); promptEvent r (go "CreatorID")])).
Proof.
  intros Henv Hl Hrej.
  unfold renamer.promptFields, mbind, M_bind, Fprint at 1. cbn [stdin trace].
  assert (H1 : renamer.promptField w r (go "FXName") renamer.required []
                 (mkState [line ++ NL :: more]
                    (tr ++ [EvWrite (renamer.Stdout r) (go "CatID: " ++ catID ++ [NL])]))
               = (Ok (spec.normalize (line ++ [NL])),
                  mkState [] ((tr ++ [EvWrite (renamer.Stdout r) (go "CatID: " ++ catID ++ [NL])])
                              ++ [promptEvent r (go "FXName")]))).
  { rewrite promptField_interactive by now left.
    now apply promptLoop_round_accept. }
  rewrite H1.
  apply required_value_nonempty in H1 as N1.
  rewrite (bool_decide_eq_false_2 _ N1).
  rewrite promptField_interactive by now right.
  rewrite promptLoop_unfold. cbn [stdin trace bufio.ReadString].
  now rewrite <- !app_assoc.
Qed.

End Reentry.

Lemma promptField_reenter_witness :
  renamer.promptField (session ∅ [] []) terminal (go "FXName") renamer.required []
    (mkState [go "rain-heavy" ++ NL :: go "lost"; go "next" ++ [NL]] [])
  = (Ok (go "rain-heavy"),
     mkState [go "next" ++ [NL]] [EvWrite os_Stdout (go "FXName: ")]).
Proof.
  apply (promptField_reenter (session ∅ [] []) terminal (go "FXName") renamer.required []
           (typed [go "  rain   heavy "]) (go "rain-heavy")
           (mkState [] [EvWrite os_Stdout (go "FXName: ")])
           (go "lost") [go "next" ++ [NL]] []).
  - left. reflexivity.
  - vm_compute. reflexivity.
Defined.

Lemma promptFields_one_chunk_witness :
  renamer.promptFields (session ∅ [] []) terminal (go "AMBPark")
    (mkState [go "rain" ++ NL :: go "Buddin" ++ NL :: go "Phonogrifter" ++ [NL; NL]] [])
  = (Err io_EOF,
     mkState [] [EvWrite os_Stdout (go "CatID: AMBPark" ++ [NL]);
                 EvWrite os_Stdout (go "FXName: "); EvWrite os_Stdout (go "CreatorID: ")]).
Proof.
  apply (promptFields_one_chunk (session ∅ [] []) terminal (go "AMBPark") (go "rain")
           (go "Buddin" ++ NL :: go "Phonogrifter" ++ [NL; NL]) []).
  - vm_compute. reflexivity.
  - vm_compute. intros H. apply list_elem_of_In in H. simpl in H. intuition discriminate.
  - vm_compute. reflexivity.
Defined.

(** ** Rendered names can be taken apart again *)

Section RenderedNames.

Context (w : World) (r : renamer.Renamer).

Lemma promptField_delimiterFree (fieldName : gostring) (req : renamer.requirement)
    (envOverrideVar : gostring) (st : State) (v : gostring) (st' : State) :
  envOverrideVar = [] \/ spec.delimiterFree (Getenv w envOverrideVar) ->
  renamer.promptField w r fieldName req envOverrideVar st = (Ok v, st') ->
  spec.delimiterFree v.
Proof.
  intros Henv. unfold renamer.promptField.
  destruct (bool_decide (envOverrideVar ≠ []) && bool_decide (Getenv w envOverrideVar ≠ []))
    eqn:E.
  - intros [= <- _]. destruct Henv as [-> | Henv]; [discriminate | exact Henv].
  - intros H. apply promptLoop_accepted in H as (text & -> & Hc).
    now apply normalize_delimiterFree.
Qed.

Lemma segments_Split (f : ucs.Filename) :
  Forall spec.delimiterFree
    [ucs.CatID f; ucs.FXName f; ucs.CreatorID f; ucs.SourceID f; ucs.UserData f] ->
  strings.Split (ucs.Render f []) [underscore] = segments f.
Proof.
  intros Hfree. rewrite Render_segments, app_nil_r. apply Split_Join.
  - unfold segments. discriminate.
  - unfold segments, spec.delimiterFree in *.
    repeat (apply Forall_cons in Hfree as [? Hfree]).
    destruct (bool_decide (ucs.UserData f = [])); simpl; repeat constructor; assumption.
Qed.

(** X9.  When the category id holds no underscore and no override value
    holds one, every field of the filename [promptFields] returns is free of
    underscores, so that the rendered name, cut at its underscores, gives
    back exactly the fields: 5 pieces, or 4 when UserData is empty. *)
Theorem promptFields_delimiterFree (catID : gostring) (st : State)
    (f : ucs.Filename) (st' : State) :
  spec.delimiterFree catID ->
  spec.delimiterFree (Getenv w (go "UCS_CREATOR_ID")) ->
  spec.delimiterFree (Getenv w (go "UCS_SOURCE_ID")) ->
  spec.delimiterFree (Getenv w (go "UCS_USER_DATA")) ->
  renamer.promptFields w r catID st = (Ok f, st') ->
  Forall spec.delimiterFree
    [ucs.CatID f; ucs.FXName f; ucs.CreatorID f; ucs.SourceID f; ucs.UserData f]
  /\ strings.Split (ucs.Render f []) [underscore]
     = (if bool_decide (ucs.UserData f = [])
        then [ucs.CatID f; ucs.FXName f; ucs.CreatorID f; ucs.SourceID f]
        else [ucs.CatID f; ucs.FXName f; ucs.CreatorID f; ucs.SourceID f; ucs.UserData f]).
Proof.
  intros Hcat Hc Hs Hu H.
  assert (Hfree : Forall spec.delimiterFree
            [ucs.CatID f; ucs.FXName f; ucs.CreatorID f; ucs.SourceID f; ucs.UserData f]).
  { revert H.
    unfold renamer.promptFields, mbind, M_bind, Fprint at 1, fail, mret, M_ret.
    destruct (renamer.promptField w r (go "FXName") _ _ _) as [[fx|e] s1] eqn:H1;
      [|discriminate].
    destruct (bool_decide (fx = [])); [discriminate|].
    destruct (renamer.promptField w r (go "CreatorID") _ _ _) as [[cr|e] s2] eqn:H2;
      [|discriminate].
    destruct (bool_decide (cr = [])); [discriminate|].
    destruct (renamer.promptField w r (go "SourceID") _ _ _) as [[src|e] s3] eqn:H3;
      [|discriminate].
    destruct (bool_decide (src = [])); [discriminate|].
    destruct (renamer.promptField w r (go "UserData") _ _ _) as [[ud|e] s4] eqn:H4;
      [|discriminate].
    intros [= <- _]. cbn [ucs.CatID ucs.FXName ucs.CreatorID ucs.SourceID ucs.UserData].
    apply promptField_delimiterFree in H1; [|now left].
    apply promptField_delimiterFree in H2; [|now right].
    apply promptField_delimiterFree in H3; [|now right].
    apply promptField_delimiterFree in H4; [|now right].
    repeat constructor; assumption. }
  split; [exact Hfree|].
  rewrite (segments_Split f Hfree). unfold segments.
  now destruct (bool_decide (ucs.UserData f = [])).
Qed.

(** X10.  Two filenames whose fields hold no underscore render to the same
    name, with the same extension, only if they are the same filename. *)
Theorem Render_injective (f f' : ucs.Filename) (ext : gostring) :
  Forall spec.delimiterFree
    [ucs.CatID f; ucs.FXName f; ucs.CreatorID f; ucs.SourceID f; ucs.UserData f] ->
  Forall spec.delimiterFree
    [ucs.CatID f'; ucs.FXName f'; ucs.CreatorID f'; ucs.SourceID f'; ucs.UserData f'] ->
  ucs.Render f ext = ucs.Render f' ext ->
  f = f'.
Proof.
  intros Hf Hf' H.
  rewrite (Render_segments f ext), (Render_segments f' ext) in H.
  apply app_inv_tail in H.
  assert (Hseg : segments f = segments f').
  { rewrite <- (segments_Split f Hf), <- (segments_Split f' Hf').
    now rewrite !Render_segments, !app_nil_r, H. }
  destruct f as [a b c d e], f' as [a' b' c' d' e'].
  unfold segments in Hseg. cbn in Hseg.
  destruct (decide (e = [])) as [->|Ne], (decide (e' = [])) as [->|Ne'].
  - rewrite !bool_decide_eq_true_2 in Hseg by reflexivity. now injection Hseg as -> -> -> ->.
  - rewrite bool_decide_eq_true_2, (bool_decide_eq_false_2 _ Ne') in Hseg by reflexivity.
    discriminate.
  - rewrite (bool_decide_eq_false_2 _ Ne), bool_decide_eq_true_2 in Hseg by reflexivity.
    discriminate.
  - rewrite (bool_decide_eq_false_2 _ Ne), (bool_decide_eq_false_2 _ Ne') in Hseg.
    now injection Hseg as -> -> -> -> ->.
Qed.

End RenderedNames.

Lemma promptFields_delimiterFree_witness :
  strings.Split
    (ucs.Render (ucs.mkFilename (go "AMBPark") (go "rain-heavy") (go "Buddin")
                                (go "Phonogrifter") []) []) [underscore]
  = [go "AMBPark"; go "rain-heavy"; go "Buddin"; go "Phonogrifter"].
Proof.
  destruct (promptFields_delimiterFree
              (session {[ go "UCS_CREATOR_ID" := go "Buddin" ]} [] []) terminal
              (go "AMBPark") (typed [go " rain  heavy"; go "Phonogrifter"; []])
              (ucs.mkFilename (go "AMBPark") (go "rain-heavy") (go "Buddin")
                              (go "Phonogrifter") [])
              (mkState [] [EvWrite os_Stdout (go "CatID: AMBPark" ++ [NL]);
                           EvWrite os_Stdout (go "FXName: ");
                           EvWrite os_Stdout (go "SourceID: ");
                           EvWrite os_Stdout (go "UserData: ")])) as [_ H].
  1-4: vm_compute; intros H; apply list_elem_of_In in H; simpl in H; intuition discriminate.
  - vm_compute. reflexivity.
  - exact H.
Defined.

Lemma Render_injective_witness :
  ucs.mkFilename (go "AMBPark") (go "rain") (go "Buddin") (go "Phonogrifter") []
  = ucs.mkFilename (go "AMBPark") (go "rain") (go "Buddin") (go "Phonogrifter") [].
Proof.
  apply (Render_injective _ _ (go ".wav")).
  1-2: repeat constructor; vm_compute; intros H; apply list_elem_of_In in H;
    simpl in H; intuition discriminate.
  reflexivity.
Defined.

(** ** The extension, and what [Run] does to the file system *)

Section RunEffects.

Context (w : World) (r : renamer.Renamer).

Lemma extLoop_free (p q suffix : gostring) :
  46 ∉ p -> 47 ∉ p ->
  filepath.extLoop (p ++ q) suffix = filepath.extLoop q (rev p ++ suffix).
Proof.
  revert suffix. induction p as [|x p IH]; intros suffix Hdot Hsl; [reflexivity|].
  apply not_elem_of_cons in Hdot as [Hx46 Hdot].
  apply not_elem_of_cons in Hsl as [Hx47 Hsl].
  cbn [app filepath.extLoop].
  destruct (Z.eqb_spec x 47); [congruence|]. destruct (Z.eqb_spec x 46); [congruence|].
  rewrite IH by assumption. cbn [rev]. now rewrite <- app_assoc.
Qed.

Lemma extLoop_shape (revPath : gostring) :
  forall suffix ext, filepath.extLoop revPath suffix = ext -> ext ≠ [] ->
  exists p, ext = 46 :: rev p ++ suffix /\ (46 ∉ p) /\ (47 ∉ p).
Proof.
  induction revPath as [|x revPath IH]; intros suffix ext H Hne; cbn in H; [congruence|].
  destruct (Z.eqb_spec x 47); [congruence|].
  destruct (Z.eqb_spec x 46) as [->|Hx].
  - exists []. subst ext. repeat split; apply not_elem_of_nil.
  - destruct (IH _ _ H Hne) as (p & -> & Hd & Hs). exists (x :: p).
    cbn [rev]. rewrite <- app_assoc. split; [reflexivity|].
    split; apply not_elem_of_cons; split; congruence.
Qed.

(** X11.  The extension is carried over: the extension of the rendered
    name is the extension of the source file's name, whatever the fields
    hold. *)
Theorem Ext_Render (f : ucs.Filename) (name : gostring) :
  filepath.Ext name ≠ [] ->
  filepath.Ext (ucs.Render f (filepath.Ext name)) = filepath.Ext name.
Proof.
  intros Hne.
  destruct (extLoop_shape (rev name) [] (filepath.Ext name) eq_refl Hne)
    as (p & Hext & Hd & Hs).
  rewrite app_nil_r in Hext. rewrite Hext.
  rewrite Render_segments. unfold filepath.Ext.
  rewrite rev_app_distr. cbn [rev]. rewrite rev_involutive, <- app_assoc.
  rewrite extLoop_free by assumption.
  cbn. rewrite app_nil_r. reflexivity.
Qed.

Lemma extLoop_nil (revPath suffix : gostring) :
  filepath.extLoop revPath suffix = []
  <-> 46 ∉ strings.takeWhile (fun x => negb (x =? 47)) revPath.
Proof.
  revert suffix. induction revPath as [|x revPath IH]; intros suffix; cbn.
  - split; [intros _; apply not_elem_of_nil | reflexivity].
  - destruct (Z.eqb_spec x 47); cbn.
    + split; [intros _; apply not_elem_of_nil | reflexivity].
    + destruct (Z.eqb_spec x 46) as [->|Hx].
      * split; [discriminate | intros H; destruct H; apply list_elem_of_here].
      * rewrite IH, not_elem_of_cons. intuition congruence.
Qed.

Lemma Ext_nil (path : gostring) : filepath.Ext path = [] <-> 46 ∉ lastElement path.
Proof.
  unfold filepath.Ext, lastElement. rewrite extLoop_nil.
  rewrite !list_elem_of_In, <- in_rev. reflexivity.
Qed.

(** X12.  [Run] gives up before it does anything, with the state as it
    was, when the file cannot be examined (the error is that of [os.Stat]),
    when it is a directory, and when the last element of its name holds no
    dot. *)
Theorem Run_refuses (filename : gostring) (forceConfirm : bool) (st : State) :
  (forall e, os_Stat w filename = Err e ->
   renamer.Run w r filename forceConfirm st = (Err e, st))
  /\ (forall info, os_Stat w filename = Ok info -> fi_IsDir info = true ->
      renamer.Run w r filename forceConfirm st
      = (Err (errorString (fi_Name info ++ go " is a directory")), st))
  /\ (forall info, os_Stat w filename = Ok info -> fi_IsDir info = false ->
      46 ∉ lastElement (fi_Name info) ->
      renamer.Run w r filename forceConfirm st
      = (Err (errorString (go "no file name extension found")), st)).
Proof.
  unfold renamer.Run. repeat split.
  - intros e ->. reflexivity.
  - intros info -> ->. reflexivity.
  - intros info -> -> Hdot. apply Ext_nil in Hdot.
    now rewrite (bool_decide_eq_true_2 _ Hdot).
Qed.




End RunEffects.

Lemma Ext_Render_witness :
  filepath.Ext (ucs.Render clippy (filepath.Ext (go "take.01.wav"))) = go ".wav".
Proof.
  rewrite (Ext_Render clippy (go "take.01.wav")).
  - reflexivity.
  - vm_compute. discriminate.
Defined.

Lemma Run_refuses_witness :
  renamer.Run (session ∅ [] []) terminal (go "takes/take") true (typed [go "rain"])
  = (Err (errorString (go "no file name extension found")), typed [go "rain"]).
Proof.
  destruct (Run_refuses (session ∅ [] []) terminal (go "takes/take") true
              (typed [go "rain"])) as (_ & _ & H).
  apply (H (mkFileInfo (go "takes/take") false)).
  - reflexivity.
  - reflexivity.
  - vm_compute. intros Hin. apply list_elem_of_In in Hin. simpl in Hin.
    intuition discriminate.
Defined.


(** ** The listing, and reading a category id off a listed line *)

Section Listing.

Context (w : World) (r : renamer.Renamer).

Lemma printLines_run (out : Writer) (categories : list ucs.Category) (st : State) :
  main.printLines out categories st
  = (Ok tt, mkState (stdin st)
              (trace st ++ map (fun c => EvWrite out (listingLine c)) categories)).
Proof.
  revert st. induction categories as [|c categories IH]; intros st.
  - simpl. rewrite app_nil_r. now destruct st.
  - cbn [main.printLines map]. unfold mbind, M_bind, Fprint.
    rewrite IH. cbn [stdin trace]. now rewrite <- app_assoc.
Qed.

(** X14.  When standard output is not a terminal, whatever the command
    line holds: if the catalog loads, [main] writes one line per entry to
    standard output, in the order of the catalog, reads nothing and exits
    with 0; if it does not load, the error goes to standard error and the
    exit status is 1 (2 for [ErrHelp]). *)
Theorem main_listing (st : State) :
  isatty_Stdout w = false ->
  (forall categories, ucs.Categories w = Ok categories ->
   main.main w st
   = (0, mkState (stdin st)
           (trace st ++ map (fun c => EvWrite os_Stdout (listingLine c)) categories)))
  /\ (forall e, ucs.Categories w = Err e ->
      main.main w st
      = if main.isErrHelp e then (2, st)
        else (1, mkState (stdin st) (trace st ++ [EvWrite os_Stderr (Error e ++ [NL])]))).
Proof.
  intros Htty. unfold main.main, main.run, main.isInteractive, main.printCategories.
  rewrite Htty. cbn [negb]. split.
  - intros categories ->. now rewrite printLines_run.
  - intros e ->. unfold fail. now destruct (main.isErrHelp e).
Qed.

Lemma dropWhile_stop (f : rune -> bool) (l1 l2 : gostring) (x : rune) :
  f x = false ->
  strings.dropWhile f (l1 ++ x :: l2) = strings.dropWhile f l1 ++ x :: l2.
Proof.
  intros Hx. induction l1 as [|y l1 IH]; simpl.
  - now rewrite Hx.
  - destruct (f y); [exact IH | reflexivity].
Qed.

Lemma TrimRightFunc_after (f : rune -> bool) (a b : gostring) (z : rune) :
  f z = false ->
  strings.TrimRightFunc (a ++ z :: b) f = a ++ z :: strings.TrimRightFunc b f.
Proof.
  intros Hz. unfold strings.TrimRightFunc.
  rewrite rev_app_distr. cbn [rev]. rewrite <- app_assoc. cbn [app].
  rewrite (dropWhile_stop f (rev b) (rev a) z Hz).
  rewrite rev_app_distr. cbn [rev]. rewrite rev_involutive, <- app_assoc. reflexivity.
Qed.

Lemma dropWhile_suffix (f : rune -> bool) (l : gostring) :
  exists p, l = p ++ strings.dropWhile f l.
Proof.
  induction l as [|x l [p IH]]; [now exists []|].
  simpl. destruct (f x); [|now exists []].
  exists (x :: p). simpl. now rewrite <- IH.
Qed.

Lemma TrimRightFunc_prefix (f : rune -> bool) (b : gostring) :
  exists dropped, b = strings.TrimRightFunc b f ++ dropped.
Proof.
  unfold strings.TrimRightFunc.
  destruct (dropWhile_suffix f (rev b)) as [p Hp].
  exists (rev p). rewrite <- rev_app_distr, <- Hp. now rewrite rev_involutive.
Qed.

Lemma hd_splitLoop (c : rune) (s acc : gostring) :
  hd [] (strings.splitLoop [c] 0 s acc)
  = rev acc ++ strings.takeWhile (fun x => negb (x =? c)) s.
Proof.
  revert acc. induction s as [|x s IH]; intros acc.
  - simpl. now rewrite app_nil_r.
  - cbn [strings.splitLoop strings.takeWhile]. rewrite HasPrefix_single.
    destruct (x =? c); cbn [negb hd].
    + now rewrite app_nil_r.
    + rewrite IH. cbn [rev]. now rewrite <- app_assoc.
Qed.

Lemma takeWhile_free (c : rune) (a t : gostring) :
  c ∉ a ->
  strings.takeWhile (fun x => negb (x =? c)) (a ++ t)
  = a ++ strings.takeWhile (fun x => negb (x =? c)) t.
Proof.
  induction a as [|x a IH]; [reflexivity|].
  intros [Hx Ha]%not_elem_of_cons. cbn [app strings.takeWhile].
  destruct (Z.eqb_spec x c); [congruence|]. cbn [negb]. now rewrite IH.
Qed.

Lemma TrimRight_after_colon (catID : gostring) :
  58 ∉ catID -> strings.TrimRight (catID ++ [58]) (go ":") = catID.
Proof.
  intros Hc. unfold strings.TrimRight, strings.TrimRightFunc.
  rewrite rev_app_distr. cbn [rev app strings.dropWhile].
  change (go ":") with [58].
  rewrite bool_decide_eq_true_2 by apply list_elem_of_here.
  assert (H : forall l, 58 ∉ l ->
            strings.dropWhile (fun x => bool_decide (x ∈ [58])) l = l).
  { intros [|x l] Hl; [reflexivity|]. simpl.
    apply not_elem_of_cons in Hl as [Hx _].
    rewrite bool_decide_eq_false_2; [reflexivity|].
    intros Hin. apply list_elem_of_singleton in Hin. congruence. }
  rewrite H; [apply rev_involutive|].
  intros Hin. apply Hc. apply list_elem_of_In. apply in_rev. now apply list_elem_of_In.
Qed.

Lemma chosenCatID_line (catID tail : gostring) :
  (forall x, x ∈ catID -> unicode.IsSpace x = false) -> 58 ∉ catID ->
  chosenCatID (catID ++ go ": " ++ tail) = catID.
Proof.
  intros Hsp Hcolon. unfold chosenCatID. change (go ": ") with [58; 32]. change (go " ") with [32].
  assert (Htrim : exists t, strings.TrimSpace (catID ++ [58; 32] ++ tail) = (catID ++ [58]) ++ t
                            /\ (t = [] \/ exists t', t = 32 :: t')).
  { unfold strings.TrimSpace, strings.TrimLeftFunc.
    rewrite dropWhile_startsClean.
    2: { destruct catID as [|x catID]; [reflexivity|]. simpl. apply Hsp, list_elem_of_here. }
    cbn [app]. rewrite (TrimRightFunc_after unicode.IsSpace catID (32 :: tail) 58 eq_refl).
    exists (strings.TrimRightFunc (32 :: tail) unicode.IsSpace).
    split; [now rewrite <- app_assoc|].
    destruct (TrimRightFunc_prefix unicode.IsSpace (32 :: tail)) as [dropped Hd].
    destruct (strings.TrimRightFunc (32 :: tail) unicode.IsSpace) as [|y t'];
      [now left | right]. injection Hd as <- _. eauto. }
  destruct Htrim as (t & -> & Ht).
  unfold strings.Split. rewrite hd_splitLoop. cbn [rev app].
  rewrite takeWhile_free.
  2: { intros [Hin|Hin%list_elem_of_singleton]%elem_of_app; [|discriminate].
       apply Hsp in Hin. discriminate. }
  destruct Ht as [->|(t' & ->)]; cbn; rewrite app_nil_r; now apply TrimRight_after_colon.
Qed.

(** X15.  The listing and the selection agree: when the selector hands
    back a line of the listing, for an entry whose CatID holds no white space
    and no colon, the category id [buildFilename] reads off it is that
    entry's CatID, and the fields are prompted for with it. *)
Theorem buildFilename_selected (st : State) (c : ucs.Category) (input : Stdin) :
  Getenv w (go "UCS_CAT_ID") = [] ->
  cmd_Run w (renamer.FZFExec r) renamer.fzfArgs
    (go "FZF_DEFAULT_COMMAND=" ++ renamer.SelfCommand r) (stdin st)
  = (None, listingLine c, input) ->
  (forall x, x ∈ ucs.c_CatID c -> unicode.IsSpace x = false) ->
  58 ∉ ucs.c_CatID c ->
  chosenCatID (listingLine c) = ucs.c_CatID c
  /\ renamer.buildFilename w r st
     = renamer.promptFields w r (ucs.c_CatID c)
         (mkState input (trace st ++ [EvRun (renamer.FZFExec r) renamer.fzfArgs
                                        (go "FZF_DEFAULT_COMMAND=" ++ renamer.SelfCommand r)])).
Proof.
  intros Henv Hrun Hsp Hcolon.
  assert (Hid : chosenCatID (listingLine c) = ucs.c_CatID c).
  { unfold listingLine. now apply chosenCatID_line. }
  split; [exact Hid|].
  unfold renamer.buildFilename. rewrite Henv, Hrun.
  rewrite bool_decide_eq_false_2 by (intros H; now apply H).
  fold (chosenCatID (listingLine c)). now rewrite Hid.
Qed.

End Listing.

Lemma main_listing_witness :
  main.main (mkWorld ∅ [go "ucsrename"; go "-x"; go "take.wav"] false
               (fun _ => Ok (go "/usr/bin/fzf"))
               (fun _ => Ok threeRows) (fun _ => Ok threeRows)
               (fun name => Ok (mkFileInfo name false)) (fun _ _ => None)
               (fun _ _ _ input => (None, [], input)))
    (typed [go "unread"])
  = (0, mkState [go "unread" ++ [NL]]
          [EvWrite os_Stdout (go "AIRBlow: AIR BLOW -- wind" ++ [NL]);
           EvWrite os_Stdout (go "AMBPark: AMBIENCE PARK -- park indoor outdoor" ++ [NL]);
           EvWrite os_Stdout (go "WATRSurf: WATER SURF -- waves" ++ [NL])]).
Proof.
  destruct (main_listing
              (mkWorld ∅ [go "ucsrename"; go "-x"; go "take.wav"] false
                 (fun _ => Ok (go "/usr/bin/fzf"))
                 (fun _ => Ok threeRows) (fun _ => Ok threeRows)
                 (fun name => Ok (mkFileInfo name false)) (fun _ _ => None)
                 (fun _ _ _ input => (None, [], input)))
              (typed [go "unread"]) eq_refl) as [H _].
  rewrite (H _ eq_refl). vm_compute. reflexivity.
Defined.

Lemma buildFilename_selected_witness :
  chosenCatID (go "AMBPark: AMBIENCE PARK -- park indoor outdoor" ++ [NL]) = go "AMBPark"
  /\ fst (renamer.buildFilename
            (session ∅ [] (go "AMBPark: AMBIENCE PARK -- park indoor outdoor" ++ [NL]))
            terminal (typed [go "rain"; go "Buddin"; go "Phonogrifter"; go "Clippy"]))
     = Ok (ucs.mkFilename (go "AMBPark") (go "rain") (go "Buddin") (go "Phonogrifter")
             (go "Clippy")).
Proof.
  destruct (buildFilename_selected
              (session ∅ [] (go "AMBPark: AMBIENCE PARK -- park indoor outdoor" ++ [NL]))
              terminal (typed [go "rain"; go "Buddin"; go "Phonogrifter"; go "Clippy"])
              (ucs.mkCategory (go "AMBIENCE") (go "PARK") (go "AMBPark") (go "AMB")
                 (go "park indoor outdoor"))
              (stdin (typed [go "rain"; go "Buddin"; go "Phonogrifter"; go "Clippy"])))
    as [H1 H2].
  - vm_compute. reflexivity.
  - vm_compute. reflexivity.
  - intros x Hx. apply list_elem_of_In in Hx. vm_compute in Hx.
    repeat destruct Hx as [<-|Hx]; try reflexivity. destruct Hx.
  - vm_compute. intros H. apply list_elem_of_In in H. simpl in H. intuition discriminate.
  - split; [exact H1|]. rewrite H2. vm_compute. reflexivity.
Defined.

(** ** Overrides for every field but the effect name *)

Section AllOverrides.

Context (w : World) (r : renamer.Renamer).

(** X16.  With the three overrides set, [promptFields] asks for the effect
    name only: it writes the CatID line, runs the prompt loop for FXName, and
    on its value returns the filename with the three environment values as
    they are; no other prompt is written and no other line is read. *)
Theorem promptFields_all_overrides (catID : gostring) (st : State) :
  Getenv w (go "UCS_CREATOR_ID") ≠ [] ->
  Getenv w (go "UCS_SOURCE_ID") ≠ [] ->
  Getenv w (go "UCS_USER_DATA") ≠ [] ->
  renamer.promptFields w r catID st
  = match renamer.promptLoop r (go "FXName") renamer.required
            (mkState (stdin st)
               (trace st ++ [EvWrite (renamer.Stdout r) (go "CatID: " ++ catID ++ [NL])])) with
    | (Ok fxName, st') =>
        (Ok (ucs.mkFilename catID fxName (Getenv w (go "UCS_CREATOR_ID"))
               (Getenv w (go "UCS_SOURCE_ID")) (Getenv w (go "UCS_USER_DATA"))), st')
    | (Err e, st') => (Err e, st')
    end.
Proof.
  intros Hc Hs Hu.
  unfold renamer.promptFields, mbind, M_bind, Fprint at 1, mret, M_ret.
  rewrite promptField_interactive by now left.
  destruct (renamer.promptLoop r (go "FXName") renamer.required _) as [[fx|e] s1] eqn:H1;
    [|reflexivity].
  apply promptLoop_required_nonempty in H1.
  rewrite (bool_decide_eq_false_2 _ H1).
  unfold renamer.promptField.
  rewrite !(bool_decide_eq_true_2 _ Hc), !(bool_decide_eq_true_2 _ Hs),
    !(bool_decide_eq_true_2 _ Hu).
  rewrite !bool_decide_eq_true_2 by discriminate. cbn [andb].
  rewrite (bool_decide_eq_false_2 _ Hc), (bool_decide_eq_false_2 _ Hs). reflexivity.
Qed.

End AllOverrides.

Lemma promptFields_all_overrides_witness :
  renamer.promptFields
    (session {[ go "UCS_CREATOR_ID" := go "Buddin"; go "UCS_SOURCE_ID" := go "Phono_grifter";
                go "UCS_USER_DATA" := go "take 2" ]} [] [])
    terminal (go "AMBPark") (typed [go "rain"; go "unread"])
  = (Ok (ucs.mkFilename (go "AMBPark") (go "rain") (go "Buddin") (go "Phono_grifter")
           (go "take 2")),
     mkState [go "unread" ++ [NL]]
       [EvWrite os_Stdout (go "CatID: AMBPark" ++ [NL]); EvWrite os_Stdout (go "FXName: ")]).
Proof.
  rewrite (promptFields_all_overrides
             (session {[ go "UCS_CREATOR_ID" := go "Buddin";
                         go "UCS_SOURCE_ID" := go "Phono_grifter";
                         go "UCS_USER_DATA" := go "take 2" ]} [] [])
             terminal (go "AMBPark") (typed [go "rain"; go "unread"])).
  - vm_compute. reflexivity.
  - vm_compute. discriminate.
  - vm_compute. discriminate.
  - vm_compute. discriminate.
Defined.
